(** * The AETROS backend client ([aetros/client.py]) as a state machine

    A shallow embedding of [BackendClient] and [JobClient]: the client object
    is a record, every method a computation in a state-and-exception monad,
    and everything outside the file (the SSH transport, the peer, the logger,
    the event listener) is either a script stored in the state or an entry
    appended to an effect trace. *)

From Stdlib Require Import ZArith String List Lia Bool.
From Stdlib.Strings Require Import Byte Ascii.
From stdpp Require Import base option list strings gmap.

Set Warnings "-register-all".

Local Open Scope Z_scope.

(** ** Python values *)

(** What [msgpack] packs and unpacks: the payloads handed to [send] and the
    records decoded from the peer. *)
Inductive pyval : Type :=
| VNone
| VBool (b : bool)
| VInt (z : Z)
| VStr (s : string)
| VBytes (b : list byte)
| VList (l : list pyval)
| VDict (d : list (string * pyval)).

(** [x == s] for a string literal [s]. *)
Definition is_str (s : string) (v : pyval) : bool :=
  match v with
  | VStr s' => String.eqb s s'
  | _ => false
  end.

(** [needle in hay] on strings. *)
Fixpoint contains (needle hay : string) : bool :=
  String.prefix needle hay ||
  match hay with
  | EmptyString => false
  | String _ rest => contains needle rest
  end.

(** [len] as a Python integer. *)
Definition len {A} (l : list A) : Z := Z.of_nat (length l).

(** ** Insertion-ordered dictionaries

    The per-channel dictionaries the client iterates over ([six.iterkeys],
    [six.iteritems]) keep their keys in insertion order; [set] overwrites in
    place and appends a new key at the end. *)
Module Dict.
Section Defs.
Context {V : Type}.

Definition t := list (string * V).

Fixpoint get (k : string) (d : list (string * V)) : option V :=
  match d with
  | [] => None
  | (k', v) :: rest => if String.eqb k k' then Some v else get k rest
  end.

Fixpoint set (k : string) (v : V) (d : list (string * V)) : list (string * V) :=
  match d with
  | [] => [(k, v)]
  | (k', v') :: rest =>
      if String.eqb k k' then (k, v) :: rest else (k', v') :: set k v rest
  end.

Definition keys (d : list (string * V)) : list string := map fst d.
End Defs.
Arguments t : clear implicits.
End Dict.

(** ** Exceptions and the outside world *)

(** Python exceptions: [Exception cls msg] is any subclass of [Exception];
    the other two derive from [BaseException] only, so [except Exception]
    lets them through. *)
Inductive exn : Type :=
| Exception (cls : string) (msg : string)
| KeyboardInterrupt
| SystemExit (code : Z).

Definition is_Exception (e : exn) : bool :=
  match e with
  | Exception _ _ => true
  | _ => false
  end.

(** [str(error)]. *)
Definition str_exn (e : exn) : string :=
  match e with
  | Exception _ msg => msg
  | KeyboardInterrupt => ""
  | SystemExit code => ""
  end.

Definition KeyError (k : string) : exn := Exception "KeyError" k.
Definition TypeError (msg : string) : exn := Exception "TypeError" msg.
Definition AttributeError (msg : string) : exn := Exception "AttributeError" msg.

(** One step of the peer as seen through [stdout.read(1)] followed by the
    unpacker: the records completed by that chunk (often none), the empty
    chunk of a broken connection, or a failing read.  A stream whose script
    is exhausted blocks the reader. *)
Inductive rx_item : Type :=
| RxChunk (decoded : list pyval)
| RxEOF
| RxError (e : exn).

(** The three files [exec_command] returns: the outcome of each future write
    on stdin ([None] is a successful write, an exhausted script keeps
    succeeding), the script of stdout ([None] for a falsy stdout) and the
    stripped, decoded text of stderr. *)
Record exec_files := mkFiles {
  f_stdin : list (option exn);
  f_stdout : option (list rx_item);
  f_stderr : string
}.

(** What the transport provider answers to one connect attempt. *)
Record attempt := mkAttempt {
  create_ssh_stream_raises : option exn;
  exec_command_result : exn + exec_files
}.

Inductive ssh_state : Type := SshOpen | SshClosed.

Inductive level : Type := DEBUG | WARNING | ERROR.

(** Everything the client does to the outside world, in program order. *)
Inductive effect : Type :=
| Fire (event : string) (arg : option pyval)
| Log (lvl : level) (text : string)
| Create (channel : string)
| Exec (channel : string)
| Write (channel : string) (buf : list byte)
| Close (channel : string)
| Sleep (ms : Z).

(** ** Messages and the client object *)

(** A queue entry as built by [send]. *)
Record message := mkMessage {
  _id : Z;
  _data : list byte;
  _total : Z;
  _sending : bool;
  _sent : bool
}.

Definition set__sending (v : bool) (m : message) : message :=
  mkMessage (_id m) (_data m) (_total m) v (_sent m).
Definition set__sent (v : bool) (m : message) : message :=
  mkMessage (_id m) (_data m) (_total m) (_sending m) v.

#[global] Instance byte_eq_decision : EqDecision byte := Byte.byte_eq_dec.
#[global] Instance message_eq_dec : EqDecision message.
Proof. solve_decision. Defined.

(** Messages are Python objects shared between a queue and its snapshots: a
    queue holds references into the store [objs]. *)
Definition loc := nat.

(** The attributes of [BackendClient] and [JobClient], then the store of
    message objects, the effect trace, the transport provider's answers to
    the connect attempts still to come, and whether the interpreter has
    already torn down the [socket] module. *)
Record client := mkClient {
  go_offline_on_first_failed_attempt : bool;
  message_id : Z;
  job_id : pyval;
  queues : gmap string (list loc);
  ssh_stream : Dict.t (option ssh_state);
  ssh_stream_stdouts : Dict.t (option (list rx_item));
  ssh_stream_stdins : Dict.t (option (list (option exn)));
  lock : bool;
  connection_errors : Z;
  connection_tries : Z;
  in_connecting : bool;
  stop_on_empty_queue : bool;
  online : bool;
  active : bool;
  expect_close : bool;
  external_stopped : bool;
  registered : gmap string bool;
  connected : gmap string bool;
  was_connected_once : gmap string bool;
  model_name : pyval;
  name : option string;
  objs : list message;
  trace : list effect;
  transport : gmap string (list attempt);
  socket_is_none : bool
}.

Definition set_message_id (v : Z) (s : client) : client :=
  mkClient (go_offline_on_first_failed_attempt s) v (job_id s) (queues s) (ssh_stream s)
    (ssh_stream_stdouts s) (ssh_stream_stdins s) (lock s) (connection_errors s)
    (connection_tries s) (in_connecting s) (stop_on_empty_queue s) (online s) (active s)
    (expect_close s) (external_stopped s) (registered s) (connected s) (was_connected_once s)
    (model_name s) (name s) (objs s) (trace s) (transport s) (socket_is_none s).
Definition set_job_id (v : pyval) (s : client) : client :=
  mkClient (go_offline_on_first_failed_attempt s) (message_id s) v (queues s) (ssh_stream s)
    (ssh_stream_stdouts s) (ssh_stream_stdins s) (lock s) (connection_errors s)
    (connection_tries s) (in_connecting s) (stop_on_empty_queue s) (online s) (active s)
    (expect_close s) (external_stopped s) (registered s) (connected s) (was_connected_once s)
    (model_name s) (name s) (objs s) (trace s) (transport s) (socket_is_none s).
Definition set_queues (v : gmap string (list loc)) (s : client) : client :=
  mkClient (go_offline_on_first_failed_attempt s) (message_id s) (job_id s) v (ssh_stream s)
    (ssh_stream_stdouts s) (ssh_stream_stdins s) (lock s) (connection_errors s)
    (connection_tries s) (in_connecting s) (stop_on_empty_queue s) (online s) (active s)
    (expect_close s) (external_stopped s) (registered s) (connected s) (was_connected_once s)
    (model_name s) (name s) (objs s) (trace s) (transport s) (socket_is_none s).
Definition set_ssh_stream (v : Dict.t (option ssh_state)) (s : client) : client :=
  mkClient (go_offline_on_first_failed_attempt s) (message_id s) (job_id s) (queues s) v
    (ssh_stream_stdouts s) (ssh_stream_stdins s) (lock s) (connection_errors s)
    (connection_tries s) (in_connecting s) (stop_on_empty_queue s) (online s) (active s)
    (expect_close s) (external_stopped s) (registered s) (connected s) (was_connected_once s)
    (model_name s) (name s) (objs s) (trace s) (transport s) (socket_is_none s).
Definition set_ssh_stream_stdouts (v : Dict.t (option (list rx_item))) (s : client) : client :=
  mkClient (go_offline_on_first_failed_attempt s) (message_id s) (job_id s) (queues s)
    (ssh_stream s) v (ssh_stream_stdins s) (lock s) (connection_errors s) (connection_tries s)
    (in_connecting s) (stop_on_empty_queue s) (online s) (active s) (expect_close s)
    (external_stopped s) (registered s) (connected s) (was_connected_once s) (model_name s)
    (name s) (objs s) (trace s) (transport s) (socket_is_none s).
Definition set_ssh_stream_stdins (v : Dict.t (option (list (option exn)))) (s : client) : client :=
  mkClient (go_offline_on_first_failed_attempt s) (message_id s) (job_id s) (queues s)
    (ssh_stream s) (ssh_stream_stdouts s) v (lock s) (connection_errors s) (connection_tries s)
    (in_connecting s) (stop_on_empty_queue s) (online s) (active s) (expect_close s)
    (external_stopped s) (registered s) (connected s) (was_connected_once s) (model_name s)
    (name s) (objs s) (trace s) (transport s) (socket_is_none s).
Definition set_lock (v : bool) (s : client) : client :=
  mkClient (go_offline_on_first_failed_attempt s) (message_id s) (job_id s) (queues s)
    (ssh_stream s) (ssh_stream_stdouts s) (ssh_stream_stdins s) v (connection_errors s)
    (connection_tries s) (in_connecting s) (stop_on_empty_queue s) (online s) (active s)
    (expect_close s) (external_stopped s) (registered s) (connected s) (was_connected_once s)
    (model_name s) (name s) (objs s) (trace s) (transport s) (socket_is_none s).
Definition set_connection_errors (v : Z) (s : client) : client :=
  mkClient (go_offline_on_first_failed_attempt s) (message_id s) (job_id s) (queues s)
    (ssh_stream s) (ssh_stream_stdouts s) (ssh_stream_stdins s) (lock s) v (connection_tries s)
    (in_connecting s) (stop_on_empty_queue s) (online s) (active s) (expect_close s)
    (external_stopped s) (registered s) (connected s) (was_connected_once s) (model_name s)
    (name s) (objs s) (trace s) (transport s) (socket_is_none s).
Definition set_connection_tries (v : Z) (s : client) : client :=
  mkClient (go_offline_on_first_failed_attempt s) (message_id s) (job_id s) (queues s)
    (ssh_stream s) (ssh_stream_stdouts s) (ssh_stream_stdins s) (lock s) (connection_errors s) v
    (in_connecting s) (stop_on_empty_queue s) (online s) (active s) (expect_close s)
    (external_stopped s) (registered s) (connected s) (was_connected_once s) (model_name s)
    (name s) (objs s) (trace s) (transport s) (socket_is_none s).
Definition set_in_connecting (v : bool) (s : client) : client :=
  mkClient (go_offline_on_first_failed_attempt s) (message_id s) (job_id s) (queues s)
    (ssh_stream s) (ssh_stream_stdouts s) (ssh_stream_stdins s) (lock s) (connection_errors s)
    (connection_tries s) v (stop_on_empty_queue s) (online s) (active s) (expect_close s)
    (external_stopped s) (registered s) (connected s) (was_connected_once s) (model_name s)
    (name s) (objs s) (trace s) (transport s) (socket_is_none s).
Definition set_stop_on_empty_queue (v : bool) (s : client) : client :=
  mkClient (go_offline_on_first_failed_attempt s) (message_id s) (job_id s) (queues s)
    (ssh_stream s) (ssh_stream_stdouts s) (ssh_stream_stdins s) (lock s) (connection_errors s)
    (connection_tries s) (in_connecting s) v (online s) (active s) (expect_close s)
    (external_stopped s) (registered s) (connected s) (was_connected_once s) (model_name s)
    (name s) (objs s) (trace s) (transport s) (socket_is_none s).
Definition set_online (v : bool) (s : client) : client :=
  mkClient (go_offline_on_first_failed_attempt s) (message_id s) (job_id s) (queues s)
    (ssh_stream s) (ssh_stream_stdouts s) (ssh_stream_stdins s) (lock s) (connection_errors s)
    (connection_tries s) (in_connecting s) (stop_on_empty_queue s) v (active s) (expect_close s)
    (external_stopped s) (registered s) (connected s) (was_connected_once s) (model_name s)
    (name s) (objs s) (trace s) (transport s) (socket_is_none s).
Definition set_active (v : bool) (s : client) : client :=
  mkClient (go_offline_on_first_failed_attempt s) (message_id s) (job_id s) (queues s)
    (ssh_stream s) (ssh_stream_stdouts s) (ssh_stream_stdins s) (lock s) (connection_errors s)
    (connection_tries s) (in_connecting s) (stop_on_empty_queue s) (online s) v (expect_close s)
    (external_stopped s) (registered s) (connected s) (was_connected_once s) (model_name s)
    (name s) (objs s) (trace s) (transport s) (socket_is_none s).
Definition set_expect_close (v : bool) (s : client) : client :=
  mkClient (go_offline_on_first_failed_attempt s) (message_id s) (job_id s) (queues s)
    (ssh_stream s) (ssh_stream_stdouts s) (ssh_stream_stdins s) (lock s) (connection_errors s)
    (connection_tries s) (in_connecting s) (stop_on_empty_queue s) (online s) (active s) v
    (external_stopped s) (registered s) (connected s) (was_connected_once s) (model_name s)
    (name s) (objs s) (trace s) (transport s) (socket_is_none s).
Definition set_external_stopped (v : bool) (s : client) : client :=
  mkClient (go_offline_on_first_failed_attempt s) (message_id s) (job_id s) (queues s)
    (ssh_stream s) (ssh_stream_stdouts s) (ssh_stream_stdins s) (lock s) (connection_errors s)
    (connection_tries s) (in_connecting s) (stop_on_empty_queue s) (online s) (active s)
    (expect_close s) v (registered s) (connected s) (was_connected_once s) (model_name s)
    (name s) (objs s) (trace s) (transport s) (socket_is_none s).
Definition set_registered (v : gmap string bool) (s : client) : client :=
  mkClient (go_offline_on_first_failed_attempt s) (message_id s) (job_id s) (queues s)
    (ssh_stream s) (ssh_stream_stdouts s) (ssh_stream_stdins s) (lock s) (connection_errors s)
    (connection_tries s) (in_connecting s) (stop_on_empty_queue s) (online s) (active s)
    (expect_close s) (external_stopped s) v (connected s) (was_connected_once s) (model_name s)
    (name s) (objs s) (trace s) (transport s) (socket_is_none s).
Definition set_connected (v : gmap string bool) (s : client) : client :=
  mkClient (go_offline_on_first_failed_attempt s) (message_id s) (job_id s) (queues s)
    (ssh_stream s) (ssh_stream_stdouts s) (ssh_stream_stdins s) (lock s) (connection_errors s)
    (connection_tries s) (in_connecting s) (stop_on_empty_queue s) (online s) (active s)
    (expect_close s) (external_stopped s) (registered s) v (was_connected_once s) (model_name s)
    (name s) (objs s) (trace s) (transport s) (socket_is_none s).
Definition set_was_connected_once (v : gmap string bool) (s : client) : client :=
  mkClient (go_offline_on_first_failed_attempt s) (message_id s) (job_id s) (queues s)
    (ssh_stream s) (ssh_stream_stdouts s) (ssh_stream_stdins s) (lock s) (connection_errors s)
    (connection_tries s) (in_connecting s) (stop_on_empty_queue s) (online s) (active s)
    (expect_close s) (external_stopped s) (registered s) (connected s) v (model_name s) (name s)
    (objs s) (trace s) (transport s) (socket_is_none s).
Definition set_model_name (v : pyval) (s : client) : client :=
  mkClient (go_offline_on_first_failed_attempt s) (message_id s) (job_id s) (queues s)
    (ssh_stream s) (ssh_stream_stdouts s) (ssh_stream_stdins s) (lock s) (connection_errors s)
    (connection_tries s) (in_connecting s) (stop_on_empty_queue s) (online s) (active s)
    (expect_close s) (external_stopped s) (registered s) (connected s) (was_connected_once s) v
    (name s) (objs s) (trace s) (transport s) (socket_is_none s).
Definition set_name (v : option string) (s : client) : client :=
  mkClient (go_offline_on_first_failed_attempt s) (message_id s) (job_id s) (queues s)
    (ssh_stream s) (ssh_stream_stdouts s) (ssh_stream_stdins s) (lock s) (connection_errors s)
    (connection_tries s) (in_connecting s) (stop_on_empty_queue s) (online s) (active s)
    (expect_close s) (external_stopped s) (registered s) (connected s) (was_connected_once s)
    (model_name s) v (objs s) (trace s) (transport s) (socket_is_none s).
Definition set_objs (v : list message) (s : client) : client :=
  mkClient (go_offline_on_first_failed_attempt s) (message_id s) (job_id s) (queues s)
    (ssh_stream s) (ssh_stream_stdouts s) (ssh_stream_stdins s) (lock s) (connection_errors s)
    (connection_tries s) (in_connecting s) (stop_on_empty_queue s) (online s) (active s)
    (expect_close s) (external_stopped s) (registered s) (connected s) (was_connected_once s)
    (model_name s) (name s) v (trace s) (transport s) (socket_is_none s).
Definition set_trace (v : list effect) (s : client) : client :=
  mkClient (go_offline_on_first_failed_attempt s) (message_id s) (job_id s) (queues s)
    (ssh_stream s) (ssh_stream_stdouts s) (ssh_stream_stdins s) (lock s) (connection_errors s)
    (connection_tries s) (in_connecting s) (stop_on_empty_queue s) (online s) (active s)
    (expect_close s) (external_stopped s) (registered s) (connected s) (was_connected_once s)
    (model_name s) (name s) (objs s) v (transport s) (socket_is_none s).
Definition set_transport (v : gmap string (list attempt)) (s : client) : client :=
  mkClient (go_offline_on_first_failed_attempt s) (message_id s) (job_id s) (queues s)
    (ssh_stream s) (ssh_stream_stdouts s) (ssh_stream_stdins s) (lock s) (connection_errors s)
    (connection_tries s) (in_connecting s) (stop_on_empty_queue s) (online s) (active s)
    (expect_close s) (external_stopped s) (registered s) (connected s) (was_connected_once s)
    (model_name s) (name s) (objs s) (trace s) v (socket_is_none s).

(** ** Computations

    A method runs on the client and either returns, raises, or blocks for
    ever (a read nobody answers, a lock nobody releases); in each case it
    leaves a client behind. *)
Inductive result (A : Type) : Type :=
| Ret (a : A)
| Raise (e : exn)
| Hang.
Arguments Ret {A} a.
Arguments Raise {A} e.
Arguments Hang {A}.

Definition M (A : Type) : Type := client -> result A * client.

Definition ret {A} (a : A) : M A := fun s => (Ret a, s).
Definition raise {A} (e : exn) : M A := fun s => (Raise e, s).
Definition hang {A} : M A := fun s => (Hang, s).

Definition bind {A B} (c : M A) (k : A -> M B) : M B :=
  fun s =>
    match c s with
    | (Ret a, s') => k a s'
    | (Raise e, s') => (Raise e, s')
    | (Hang, s') => (Hang, s')
    end.

Declare Scope py_scope.
Delimit Scope py_scope with py.
Notation "x <- c ;; k" := (bind c (fun x => k))
  (at level 100, c at next level, right associativity) : py_scope.
Notation "c ;; k" := (bind c (fun _ => k))
  (at level 100, right associativity) : py_scope.
Local Open Scope py_scope.

Definition gets {A} (f : client -> A) : M A := fun s => (Ret (f s), s).
Definition modify (f : client -> client) : M unit := fun s => (Ret tt, f s).
Definition when (b : bool) (c : M unit) : M unit := if b then c else ret tt.

(** [try: body / except ...: handler]: [handler e] is [None] when no clause
    matches [e]. *)
Definition try_except {A} (body : M A) (handler : exn -> option (M A)) : M A :=
  fun s =>
    match body s with
    | (Raise e, s') =>
        match handler e with
        | Some h => h s'
        | None => (Raise e, s')
        end
    | r => r
    end.

(** [try: body / finally: fin]. *)
Definition try_finally {A} (body : M A) (fin : M unit) : M A :=
  fun s =>
    match body s with
    | (Hang, s') => (Hang, s')
    | (r, s') =>
        match fin s' with
        | (Ret _, s'') => (r, s'')
        | (Raise e, s'') => (Raise e, s'')
        | (Hang, s'') => (Hang, s'')
        end
    end.

(** The clause [except Exception as error]. *)
Definition except_Exception {A} (h : exn -> M A) (e : exn) : option (M A) :=
  if is_Exception e then Some (h e) else None.

(** *** Effects *)

Definition emit (e : effect) : M unit :=
  modify (fun s => set_trace (trace s ++ [e]) s).

Definition fire (event : string) (arg : option pyval) : M unit := emit (Fire event arg).
Definition log (lvl : level) (text : string) : M unit := emit (Log lvl text).
Definition sleep (ms : Z) : M unit := emit (Sleep ms).

(** [sys.exit(code)]. *)
Definition sys_exit {A} (code : Z) : M A := raise (SystemExit code).

(** [self.lock.acquire()] and [self.lock.release()]. *)
Definition lock_acquire : M unit :=
  held <- gets lock ;;
  if held then hang else modify (set_lock true).

Definition lock_release : M unit :=
  held <- gets lock ;;
  if held then modify (set_lock false)
  else raise (Exception "RuntimeError" "release unlocked lock").

(** [d[k]] on the two kinds of dictionary. *)
Definition getitem {V} (f : client -> gmap string V) (k : string) : M V :=
  d <- gets f ;;
  match d !! k with
  | Some v => ret v
  | None => raise (KeyError k)
  end.

Definition getitem_d {V} (f : client -> Dict.t V) (k : string) : M V :=
  d <- gets f ;;
  match Dict.get k d with
  | Some v => ret v
  | None => raise (KeyError k)
  end.

(** Reading and writing a message object through a reference.  A reference
    held by a queue always points into the store. *)
Definition deref (l : loc) : M message :=
  o <- gets objs ;;
  match o !! l with
  | Some m => ret m
  | None => hang
  end.

Definition update (l : loc) (f : message -> message) : M unit :=
  m <- deref l ;;
  modify (fun s => set_objs (<[l := f m]> (objs s)) s).

Definition alloc (m : message) : M loc :=
  o <- gets objs ;;
  modify (set_objs (o ++ [m])) ;;
  ret (length o).

(** *** The transport *)

(** The answer of the transport provider to the next attempt on [channel]. *)
Definition next_attempt (channel : string) : M attempt :=
  plan <- gets transport ;;
  match plan !! channel with
  | Some (a :: rest) =>
      modify (set_transport (<[channel := rest]> plan)) ;; ret a
  | _ => hang
  end.

(** [self.ssh_stream[channel].close()]. *)
Definition ssh_close (channel : string) : M unit :=
  s <- getitem_d ssh_stream channel ;;
  match s with
  | None => raise (AttributeError "'NoneType' object has no attribute 'close'")
  | Some _ =>
      emit (Close channel) ;;
      modify (fun st => set_ssh_stream (Dict.set channel (Some SshClosed) (ssh_stream st)) st)
  end.

(** [self.ssh_stream_stdins[channel].write(buf)]. *)
Definition stdin_write (channel : string) (buf : list byte) : M unit :=
  f <- getitem_d ssh_stream_stdins channel ;;
  match f with
  | None => raise (AttributeError "'NoneType' object has no attribute 'write'")
  | Some [] => emit (Write channel buf)
  | Some (None :: rest) =>
      modify (fun st => set_ssh_stream_stdins
                          (Dict.set channel (Some rest) (ssh_stream_stdins st)) st) ;;
      emit (Write channel buf)
  | Some (Some e :: rest) =>
      modify (fun st => set_ssh_stream_stdins
                          (Dict.set channel (Some rest) (ssh_stream_stdins st)) st) ;;
      raise e
  end.

(** [self.ssh_stream_stdouts[channel].read(1)] fed to the unpacker: [Some ms]
    are the records the chunk completed, [None] is the empty chunk.  The end
    of a stream stays at its head. *)
Definition stdout_read1 (channel : string) : M (option (list pyval)) :=
  f <- getitem_d ssh_stream_stdouts channel ;;
  match f with
  | None => raise (AttributeError "'NoneType' object has no attribute 'read'")
  | Some [] => hang
  | Some (RxChunk ms :: rest) =>
      modify (fun st => set_ssh_stream_stdouts
                          (Dict.set channel (Some rest) (ssh_stream_stdouts st)) st) ;;
      ret (Some ms)
  | Some (RxEOF :: rest) => ret None
  | Some (RxError e :: rest) =>
      modify (fun st => set_ssh_stream_stdouts
                          (Dict.set channel (Some rest) (ssh_stream_stdouts st)) st) ;;
      raise e
  end.

(** ** The client *)

(** [bool(v)]. *)
Definition truthy (v : pyval) : bool :=
  match v with
  | VNone => false
  | VBool b => b
  | VInt z => negb (Z.eqb z 0)
  | VStr s => negb (String.eqb s "")
  | VBytes b => match b with [] => false | _ => true end
  | VList l => match l with [] => false | _ => true end
  | VDict d => match d with [] => false | _ => true end
  end.

(** The [error] argument of [connection_error]: absent, a string, or a
    caught exception. *)
Inductive error_arg : Type :=
| ENone
| EStr (s : string)
| EExn (e : exn).

Definition error_truthy (error : error_arg) : bool :=
  match error with
  | ENone => false
  | EStr s => negb (String.eqb s "")
  | EExn _ => true
  end.

Definition str_error (error : error_arg) : string :=
  match error with
  | ENone => "None"
  | EStr s => s
  | EExn e => str_exn e
  end.

(** The [message] argument of [send_message]: a queue entry (it has
    ['_data']) or a bare record sent as it is (it has not). *)
Inductive msg_ref : Type :=
| Queued (l : loc)
| Direct (d : list (string * pyval)).

(** The two classes; [on_connect] and [handle_messages] dispatch on it. *)
Inductive class : Type := BackendClient | JobClient.

(** How a thread function stands after some iterations: still looping, left
    by [return], or past the end of its [while]. *)
Inductive thread_state : Type := Running | Returned | Ended.

Definition BUFFER_SIZE : Z := 100 * 1024.
Definition SOFT_CAP : Z := 1024 * 1024.

(** Calling a method declared with [params] parameters after [self] with
    the positional arguments [args]. *)
Definition call {A} (fname : string) (params : nat) (args : list pyval) (body : M A) : M A :=
  if Nat.eqb (length args) params then body
  else raise (TypeError (fname +:+ "() got the wrong number of positional arguments")).

(** Log entries hold the format string; the interpolated arguments are
    evaluated (they may raise) but not rendered. *)

Section Client.
(** [msgpack.packb(_, default=invalid_json_values)], the version constant
    of [aetros.const] and [config['host']]. *)
Variable packb : pyval -> list byte.
Variable version : string.
Variable host : string.

Definition BackendClient_init : client :=
  {| go_offline_on_first_failed_attempt := true;
     message_id := 0;
     job_id := VNone;
     queues := ∅;
     ssh_stream := [];
     ssh_stream_stdouts := [];
     ssh_stream_stdins := [];
     lock := false;
     connection_errors := 0;
     connection_tries := 0;
     in_connecting := false;
     stop_on_empty_queue := false;
     online := true;
     active := false;
     expect_close := false;
     external_stopped := false;
     registered := ∅;
     connected := ∅;
     was_connected_once := ∅;
     model_name := VNone;
     name := None;
     objs := [];
     trace := [];
     transport := ∅;
     socket_is_none := false |}.

Definition configure (model job : pyval) (nm : string) : M unit :=
  modify (set_model_name model) ;;
  modify (set_job_id job) ;;
  modify (set_name (Some nm)).

Definition on_sigint : M unit := modify (set_expect_close true).

Fixpoint start_channels (channels : list string) : M unit :=
  match channels with
  | [] => ret tt
  | channel :: rest =>
      modify (fun s => set_queues (<[channel := []]> (queues s)) s) ;;
      modify (fun s => set_ssh_stream (Dict.set channel None (ssh_stream s)) s) ;;
      modify (fun s => set_ssh_stream_stdouts (Dict.set channel None (ssh_stream_stdouts s)) s) ;;
      modify (fun s => set_ssh_stream_stdins (Dict.set channel None (ssh_stream_stdins s)) s) ;;
      modify (fun s => set_was_connected_once (<[channel := false]> (was_connected_once s)) s) ;;
      start_channels rest
  end.

(** [start]: the reader and writer threads it spawns are [thread_read] and
    [thread_write] below, run by whoever schedules them. *)
Definition start (channels : list string) : M unit :=
  modify (set_active true) ;;
  modify (set_queues ∅) ;;
  modify (set_ssh_stream []) ;;
  modify (set_ssh_stream_stdouts []) ;;
  modify (set_ssh_stream_stdins []) ;;
  modify (set_was_connected_once ∅) ;;
  start_channels (match channels with [] => [""] | _ => channels end).

Definition go_offline : M unit :=
  on <- gets online ;;
  if negb on then ret tt
  else
    fire "offline" None ;;
    modify (set_online false).

Definition is_connected (channel : string) (s : client) : bool :=
  match connected s !! channel with
  | Some b => b
  | None => false
  end.

Definition is_registered (channel : string) (s : client) : bool :=
  match registered s !! channel with
  | Some b => b
  | None => false
  end.

Definition connection_error (channel : string) (error : error_arg) : M unit :=
  a <- gets active ;;
  if negb a then ret tt
  else
    sleep 100 ;;
    stream <- getitem_d ssh_stream channel ;;
    match stream with
    | Some _ => log DEBUG "[%s] Client: ssh_tream close" ;; ssh_close channel
    | None => ret tt
    end ;;
    ec <- gets expect_close ;;
    if ec then ret tt
    else
      modify (set_connected ∅) ;;
      modify (set_registered ∅) ;;
      gone <- gets socket_is_none ;;
      if gone then ret tt
      else
        (if error_truthy error then
           log DEBUG "traceback.format_exc()" ;;
           log ERROR ("Connection error" +:+ ": " +:+ str_error error) ;;
           when (contains "No authentication methods available" (str_error error))
             (log ERROR ("Make sure you have authenticated your machine correctly using "
                         +:+ "'aetros authenticate'."))
         else log ERROR "Connection error") ;;
        fire "disconnect" None ;;
        modify (fun s => set_connection_errors (connection_errors s + 1) s).

(** The [while data:] loop of [send_message]; every turn removes at least
    one byte, so [length data] turns are enough.  The throughput
    bookkeeping around the write is left out. *)
Fixpoint write_chunks (fuel : nat) (channel : string) (data : list byte) : M unit :=
  match data with
  | [] => ret tt
  | _ :: _ =>
      match fuel with
      | O => hang
      | S fuel' =>
          let buf := take (Z.to_nat BUFFER_SIZE) data in
          stdin_write channel buf ;;
          write_chunks fuel' channel (drop (Z.to_nat BUFFER_SIZE) data)
      end
  end.

(** Returns [Some total], or [None] for [False]. *)
Definition send_message (message : msg_ref) (channel : string) : M (option Z) :=
  c <- gets (is_connected channel) ;;
  if negb c then ret None
  else
    match message with
    | Queued l => update l (set__sending true)
    | Direct _ => ret tt
    end ;;
    dt <- match message with
          | Queued l => m <- deref l ;; ret (_data m, _total m)
          | Direct d =>
              let data := packb (VDict (Dict.set "_sending" (VBool true) d)) in
              ret (data, len data)
          end ;;
    let data := fst dt in
    let total := snd dt in
    try_except
      (write_chunks (length data) channel data ;;
       match message with
       | Queued l => update l (set__sent true)
       | Direct _ => ret tt
       end ;;
       ret (Some total))
      (fun e =>
         match e with
         | Exception _ _ => Some (connection_error channel (EExn e) ;; ret None)
         | _ =>
             Some match message with
                  | Queued l => m <- deref l ;; ret (if _sent m then Some total else None)
                  | Direct d =>
                      match Dict.get "_sent" d with
                      | Some v => ret (if truthy v then Some total else None)
                      | None => raise (KeyError "_sent")
                      end
                  end
         end).

Definition send (data : pyval) (channel : string) : M unit :=
  a <- gets active ;;
  on <- gets online ;;
  if negb (a && on) then ret tt
  else
    stop <- gets stop_on_empty_queue ;;
    if stop then ret tt
    else
      modify (fun s => set_message_id (message_id s + 1) s) ;;
      id <- gets message_id ;;
      let data' := packb data in
      l <- alloc (mkMessage id data' (len data') false false) ;;
      q <- getitem queues channel ;;
      modify (fun s => set_queues (<[channel := q ++ [l]]> (queues s)) s).

(** The loop of [BackendClient.handle_messages]. *)
Fixpoint handle_stop (messages : list pyval) : M unit :=
  match messages with
  | [] => ret tt
  | message :: rest =>
      match message with
      | VDict d =>
          match Dict.get "a" d with
          | Some a =>
              stopped <- gets external_stopped ;;
              if negb stopped && is_str "stop" a then
                modify (set_external_stopped true) ;;
                match Dict.get "force" d with
                | Some force => fire "stop" (Some force)
                | None => raise (KeyError "force")
                end
              else ret tt
          | None => ret tt
          end
      | _ => ret tt
      end ;;
      handle_stop rest
  end.

Definition BackendClient_handle_messages (messages : list pyval) : M unit :=
  lock_acquire ;;
  try_finally (handle_stop messages) lock_release.

(** The loop [JobClient.handle_messages] runs after the base method. *)
Fixpoint handle_job (messages : list pyval) : M unit :=
  match messages with
  | [] => ret tt
  | message :: rest =>
      stopped <- gets external_stopped ;;
      (if stopped then ret tt
       else
         match message with
         | VDict d =>
             match Dict.get "a" d with
             | Some a =>
                 if is_str "parameter-changed" a then
                   match Dict.get "values" d with
                   | Some values =>
                       fire "parameter_changed" (Some (VDict [("values", values)]))
                   | None => raise (KeyError "values")
                   end
                 else ret tt
             | None => ret tt
             end ;;
             match Dict.get "type" d with
             | Some t =>
                 if is_str "action" t then fire "action" (Some message) else ret tt
             | None => ret tt
             end
         | _ => ret tt
         end) ;;
      handle_job rest
  end.

Definition handle_messages (cls : class) (messages : list pyval) : M unit :=
  match cls with
  | BackendClient => BackendClient_handle_messages messages
  | JobClient => BackendClient_handle_messages messages ;; handle_job messages
  end.

(** The [while True:] of [wait_for_at_least_one_message]: each turn reads
    one chunk, and a stream with nothing left blocks, so one turn more
    than the script is long is enough.  [[]] stands for [False]. *)
Fixpoint wait_loop (fuel : nat) (channel : string) : M (list pyval) :=
  match fuel with
  | O => hang
  | S fuel' =>
      r <- try_except
             (chunk <- stdout_read1 channel ;;
              match chunk with
              | None =>
                  connection_error channel (EStr "Connection broken w") ;;
                  ret (inl [])
              | Some ms => ret (inr ms)
              end)
             (except_Exception
                (fun error => connection_error channel (EExn error) ;; raise error)) ;;
      match r with
      | inl returned => ret returned
      | inr [] => wait_loop fuel' channel
      | inr messages => ret messages
      end
  end.

Definition wait_for_at_least_one_message (channel : string) : M (list pyval) :=
  fuel <- gets (fun s => match Dict.get channel (ssh_stream_stdouts s) with
                         | Some (Some script) => S (length script)
                         | _ => 1%nat
                         end) ;;
  wait_loop fuel channel.

Definition read (channel : string) : M (option (list pyval)) :=
  chunk <- try_except (stdout_read1 channel)
             (except_Exception
                (fun error => connection_error channel (EExn error) ;; raise error)) ;;
  match chunk with
  | None => connection_error channel (EStr "Connection broken") ;; ret None
  | Some [] => ret None
  | Some messages => ret (Some messages)
  end.

(** [on_connect] returns the truth value of what the method returns: the
    base method returns nothing. *)
Definition JobClient_on_connect (reconnect : bool) (channel : string) : M bool :=
  nm <- gets name ;;
  match nm with
  | None => raise (TypeError "unsupported operand type(s) for +: 'NoneType' and 'str'")
  | Some nm =>
      model <- gets model_name ;;
      job <- gets job_id ;;
      send_message
        (Direct [("type", VStr "register_job_worker"); ("model", model); ("job", job);
                 ("reconnect", VBool reconnect); ("version", VStr version);
                 ("name", VStr (nm +:+ channel))]) channel ;;
      log DEBUG "[%s] Wait for job client registration for %s" ;;
      messages <- wait_for_at_least_one_message channel ;;
      log DEBUG "[%s] Got %s" ;;
      match messages with
      | [] =>
          fire "registration_failed"
            (Some (VDict [("reason", VStr "No answer received.")])) ;;
          ret false
      | message :: messages =>
          log DEBUG "[%s] Client: handle message: %s" ;;
          let unrecognized :=
            log ERROR "[%s] Registration of job %s failed." ;; ret false in
          match message with
          | VDict d =>
              match Dict.get "a" d with
              | Some a =>
                  if is_str "aborted" a then
                    when (String.eqb channel "")
                      (log ERROR "[%s] Job aborted or deleted meanwhile. Exiting" ;;
                       fire "aborted" None) ;;
                    modify (set_active false) ;;
                    ret false
                  else if is_str "registration_failed" a then
                    when (String.eqb channel "")
                      match Dict.get "reason" d with
                      | Some reason =>
                          fire "registration_failed" (Some (VDict [("reason", reason)]))
                      | None => raise (KeyError "reason")
                      end ;;
                    ret false
                  else if is_str "registered" a then
                    modify (fun s => set_registered (<[channel := true]> (registered s)) s) ;;
                    when (String.eqb channel "") (fire "registration" None) ;;
                    handle_messages JobClient messages ;;
                    ret true
                  else unrecognized
              | None => unrecognized
              end
          | _ => unrecognized
          end
      end
  end.

Definition on_connect (cls : class) (reconnect : bool) (channel : string) : M bool :=
  match cls with
  | BackendClient => ret false
  | JobClient => JobClient_on_connect reconnect channel
  end.

(** [close]: forced shutdown. *)
Fixpoint close_streams (items : list (string * option ssh_state)) : M unit :=
  match items with
  | [] => ret tt
  | (channel, stream) :: rest =>
      match stream with
      | Some _ =>
          log DEBUG "[%s] Client: ssh_tream close" ;;
          ssh_close channel
      | None => ret tt
      end ;;
      close_streams rest
  end.

Definition close : M unit :=
  modify (set_active false) ;;
  modify (set_connected ∅) ;;
  modify (set_registered ∅) ;;
  items <- gets ssh_stream ;;
  close_streams items ;;
  on <- gets online ;;
  when on (fire "close" None) ;;
  modify (set_ssh_stream []) ;;
  modify (set_online false).

(** *** Connecting *)

(** Lines 173 to 204 of [connect]: open the transport, wait for a first
    frame, run the handshake.  Returns [stderrdata]. *)
Definition connect_open (cls : class) (channel : string) : M string :=
  lock_acquire ;;
  modify (fun s => set_connected (<[channel := false]> (connected s)) s) ;;
  modify (fun s => set_registered (<[channel := false]> (registered s)) s) ;;
  modify (fun s => set_ssh_stream_stdins (Dict.set channel None (ssh_stream_stdins s)) s) ;;
  modify (fun s => set_ssh_stream_stdouts (Dict.set channel None (ssh_stream_stdouts s)) s) ;;
  files <- try_finally
             (stream <- getitem_d ssh_stream channel ;;
              created <- match stream with
                         | None =>
                             log DEBUG "[%s] Open ssh connection" ;;
                             emit (Create channel) ;;
                             answer <- next_attempt channel ;;
                             match create_ssh_stream_raises answer with
                             | Some e => raise e
                             | None =>
                                 modify (fun s => set_ssh_stream
                                                    (Dict.set channel (Some SshOpen)
                                                       (ssh_stream s)) s) ;;
                                 ret (Some answer)
                             end
                         | Some _ => ret None
                         end ;;
              log DEBUG "[%s] open channel" ;;
              emit (Exec channel) ;;
              answer <- match created with
                        | Some answer => ret answer
                        | None => next_attempt channel
                        end ;;
              match exec_command_result answer with
              | inl e => raise e
              | inr files =>
                  modify (fun s => set_ssh_stream_stdins
                                     (Dict.set channel (Some (f_stdin files))
                                        (ssh_stream_stdins s)) s) ;;
                  modify (fun s => set_ssh_stream_stdouts
                                     (Dict.set channel (f_stdout files)
                                        (ssh_stream_stdouts s)) s) ;;
                  ret files
              end)
             lock_release ;;
  stdout <- getitem_d ssh_stream_stdouts channel ;;
  messages <- match stdout with
              | Some _ => wait_for_at_least_one_message channel
              | None => ret []
              end ;;
  match messages with
  | [] => ret (f_stderr files)
  | _ :: _ =>
      modify (fun s => set_connected (<[channel := true]> (connected s)) s) ;;
      reconnect <- getitem was_connected_once channel ;;
      r <- on_connect cls reconnect channel ;;
      modify (fun s => set_registered (<[channel := r]> (registered s)) s) ;;
      ret ""
  end.

(** Lines 206 to 235 of [connect]: what follows from the registration.
    [close] is declared without a parameter and called here with one. *)
Definition connect_check (channel : string) (stderrdata : string) : M unit :=
  reg <- getitem registered channel ;;
  if negb reg then
    log DEBUG "[%s] Client: registration failed. stderrdata: %s" ;;
    modify (fun s => set_connected (<[channel := false]> (connected s)) s) ;;
    log DEBUG "[%s] Client: ssh_tream close" ;;
    ssh_close channel ;;
    modify (fun s => set_connection_tries (connection_tries s + 1) s) ;;
    once <- getitem was_connected_once channel ;;
    policy <- gets go_offline_on_first_failed_attempt ;;
    when (negb once && policy) go_offline ;;
    when (negb (String.eqb stderrdata ""))
      (when (negb (contains "Connection refused" stderrdata)
             && negb (contains "Permission denied" stderrdata))
         (log ERROR stderrdata)) ;;
    when (contains "Permission denied" stderrdata)
      (tries <- gets connection_tries ;;
       when (tries <? 3)
         (log WARNING ("Access denied. Did you setup your SSH public key correctly "
                       +:+ "and saved it in your AETROS Trainer user account?")) ;;
       call "close" 0 [VStr channel] close ;;
       sys_exit 1) ;;
    connection_error channel
      (EStr ("Connection error during connecting to " +:+ host +:+ ": " +:+ stderrdata))
  else
    modify (fun s => set_was_connected_once (<[channel := true]> (was_connected_once s)) s).

Definition connect (cls : class) (channel : string) : M bool :=
  tries <- gets connection_tries ;;
  when (10 <? tries) (sleep 15000) ;;
  busy <- gets in_connecting ;;
  if busy then ret false
  else
    modify (set_in_connecting true) ;;
    log DEBUG "[%s] Wanna connect ..." ;;
    returned <- try_finally
                  (try_except
                     (c <- gets (is_connected channel) ;;
                      on <- gets online ;;
                      if c || negb on then ret (Some true)
                      else
                        stderrdata <- connect_open cls channel ;;
                        connect_check channel stderrdata ;;
                        ret None)
                     (except_Exception
                        (fun error => connection_error channel (EExn error) ;; ret None)))
                  (modify (set_in_connecting false)) ;;
    match returned with
    | Some b => ret b
    | None => gets (is_connected channel)
    end.

(** *** The writer thread *)

(** First loop over the snapshot: forget transmissions that never
    completed. *)
Fixpoint reset_sending (queue_copy : list loc) : M unit :=
  match queue_copy with
  | [] => ret tt
  | l :: rest =>
      m <- deref l ;;
      when (_sending m && negb (_sent m)) (update l (set__sending false)) ;;
      reset_sending rest
  end.

(** Second loop over the snapshot; returns the list [sent]. *)
Fixpoint send_queue (channel : string) (queue_copy : list loc)
    (sent : list loc) (sent_size : Z) : M (list loc) :=
  match queue_copy with
  | [] => ret sent
  | l :: rest =>
      c <- gets (is_connected channel) ;;
      r <- gets (is_registered channel) ;;
      if negb c || negb r then ret sent
      else
        m <- deref l ;;
        if negb (_sending m) && negb (_sent m) then
          size <- send_message (Queued l) channel ;;
          match size with
          | Some size =>
              let sent := sent ++ [l] in
              let sent_size := sent_size + size in
              if SOFT_CAP <? sent_size then ret sent
              else send_queue channel rest sent sent_size
          | None => ret sent
          end
        else send_queue channel rest sent sent_size
  end.

(** [message in queue] and [queue.remove(message)] compare the records,
    not the references. *)
Fixpoint remove_equal (o : list message) (m : message) (queue : list loc) : list loc :=
  match queue with
  | [] => []
  | l :: rest =>
      if bool_decide (o !! l = Some m) then rest
      else l :: remove_equal o m rest
  end.

Fixpoint remove_sent (channel : string) (sent : list loc) : M unit :=
  match sent with
  | [] => ret tt
  | l :: rest =>
      m <- deref l ;;
      q <- getitem queues channel ;;
      o <- gets objs ;;
      modify (fun s => set_queues (<[channel := remove_equal o m q]> (queues s)) s) ;;
      remove_sent channel rest
  end.

(** Lines 310 to 349: one pass over the queue.  [true] when the thread
    function returns. *)
Definition thread_write_flush (channel : string) : M bool :=
  queue_copy <- getitem queues channel ;;
  try_except
    (reset_sending queue_copy ;;
     sent <- send_queue channel queue_copy [] 0 ;;
     lock_acquire ;;
     remove_sent channel sent ;;
     lock_release ;;
     stop <- gets stop_on_empty_queue ;;
     if stop then
       getitem queues channel ;;
       log DEBUG "[%s] Client sent %d / %d messages" ;;
       ret true
     else ret false)
    (except_Exception
       (fun e =>
          getitem queues channel ;;
          log DEBUG "Closed write thread: exception. %d messages left" ;;
          connection_error channel (EExn e) ;;
          ret false)).

(** One turn of the [while self.active:] of [thread_write]. *)
Definition thread_write_turn (cls : class) (channel : string) : M bool :=
  on <- gets online ;;
  returned <- (if on then
                 c <- gets (is_connected channel) ;;
                 r <- gets (is_registered channel) ;;
                 returned <- (if c && r then thread_write_flush channel else ret false) ;;
                 if returned then ret true
                 else
                   a <- gets active ;;
                   c <- gets (is_connected channel) ;;
                   ec <- gets expect_close ;;
                   (if a && negb c && negb ec then
                      ok <- connect cls channel ;;
                      when (negb ok) (sleep 5000)
                    else ret tt) ;;
                   ret false
               else ret false) ;;
  if returned then ret true
  else sleep 100 ;; ret false.

Fixpoint thread_write (fuel : nat) (cls : class) (channel : string) : M thread_state :=
  match fuel with
  | O => ret Running
  | S fuel' =>
      a <- gets active ;;
      if a then
        returned <- thread_write_turn cls channel ;;
        if returned then ret Returned else thread_write fuel' cls channel
      else
        getitem queues channel ;;
        log DEBUG "Closed write thread: ended. %d messages left" ;;
        ret Ended
  end.

(** *** The reader thread *)

Definition thread_read_turn (cls : class) (channel : string) : M unit :=
  on <- gets online ;;
  c <- gets (is_connected channel) ;;
  r <- gets (is_registered channel) ;;
  continue <- (if on && (c && r) then
                 try_except
                   (messages <- read channel ;;
                    match messages with
                    | Some messages => handle_messages cls messages
                    | None => ret tt
                    end ;;
                    ret true)
                   (except_Exception
                      (fun e =>
                         log DEBUG "[%s] Closed read thread: exception" ;;
                         connection_error channel (EExn e) ;;
                         ret false))
               else ret false) ;;
  if continue then ret tt else sleep 10.

Fixpoint thread_read (fuel : nat) (cls : class) (channel : string) : M thread_state :=
  match fuel with
  | O => ret Running
  | S fuel' =>
      a <- gets active ;;
      if a then thread_read_turn cls channel ;; thread_read fuel' cls channel
      else log DEBUG "Closed read thread: ended" ;; ret Ended
  end.

(** *** Shutdown *)

(** [file.read()]: everything up to the end of the stream; [true] when
    that is not the empty string. *)
Fixpoint read_all (got : bool) (script : list rx_item) : result bool * list rx_item :=
  match script with
  | [] => (Hang, [])
  | RxEOF :: rest => (Ret got, RxEOF :: rest)
  | RxChunk _ :: rest => read_all true rest
  | RxError e :: rest => (Raise e, rest)
  end.

Definition stdout_read_all (channel : string) (script : list rx_item) : M bool :=
  fun s =>
    let (r, script') := read_all false script in
    (r, set_ssh_stream_stdouts (Dict.set channel (Some script') (ssh_stream_stdouts s)) s).

(** [while file and file.read() != b'':] for one channel, with the counter
    [i] shared by all of them.  A read that returned something has reached
    the end of the stream, so the loop turns at most twice. *)
Fixpoint wait_closed (fuel : nat) (channel : string) (i : Z) : M Z :=
  match fuel with
  | O => hang
  | S fuel' =>
      file <- getitem_d ssh_stream_stdouts channel ;;
      match file with
      | None => ret i
      | Some script =>
          got <- stdout_read_all channel script ;;
          if got then
            let i := i + 1 in
            sleep 100 ;;
            when (i mod 50 =? 0)
              (log WARNING
                 "[%s] We are still waiting for connection closing on server side.") ;;
            wait_closed fuel' channel i
          else ret i
      end
  end.

Fixpoint wait_all_closed (channels : list string) (i : Z) : M unit :=
  match channels with
  | [] => ret tt
  | channel :: rest =>
      i <- wait_closed 3 channel i ;;
      wait_all_closed rest i
  end.

Definition wait_for_close : M unit :=
  a <- gets active ;;
  on <- gets online ;;
  if negb (a && on) then ret tt
  else
    modify (set_active false) ;;
    channels <- gets (fun s => Dict.keys (ssh_stream_stdouts s)) ;;
    wait_all_closed channels 0 ;;
    modify (set_online false).

Fixpoint send_end (channels : list string) : M unit :=
  match channels with
  | [] => ret tt
  | channel :: rest =>
      send_message (Direct [("type", VStr "end")]) channel ;;
      send_end rest
  end.

(** [end]: graceful shutdown. *)
Definition end_ : M unit :=
  modify (set_expect_close true) ;;
  channels <- gets (fun s => Dict.keys (ssh_stream_stdouts s)) ;;
  send_end channels ;;
  wait_for_close.

(** The request of [wait_sending_last_messages]; the caller then joins the
    writer threads. *)
Definition wait_sending_last_messages : M unit :=
  a <- gets active ;;
  on <- gets online ;;
  when (a && on) (modify (set_stop_on_empty_queue true)).

End Client.

(** ** A packer to run examples with

    The msgpack encoding of the values the examples use: nil, booleans,
    integers from 0 to 127, text and byte strings, lists and maps of fewer
    than 16 entries.  Anything else is packed as the reserved byte [0xc1]. *)
Definition byte_of (n : Z) : byte :=
  match Byte.of_N (Z.to_N n) with
  | Some b => b
  | None => x00
  end.

Definition be16 (n : Z) : list byte :=
  [byte_of (n / 256 mod 256); byte_of (n mod 256)].

Definition be32 (n : Z) : list byte :=
  [byte_of (n / 16777216 mod 256); byte_of (n / 65536 mod 256);
   byte_of (n / 256 mod 256); byte_of (n mod 256)].

Definition pack_str (s : string) : list byte :=
  let b := list_byte_of_string s in
  let n := len b in
  (if n <? 32 then [byte_of (160 + n)]
   else if n <? 256 then xd9 :: [byte_of n]
   else if n <? 65536 then xda :: be16 n
   else xdb :: be32 n) ++ b.

Fixpoint msgpack (v : pyval) : list byte :=
  match v with
  | VNone => [xc0]
  | VBool false => [xc2]
  | VBool true => [xc3]
  | VInt z => if (0 <=? z) && (z <? 128) then [byte_of z] else [xc1]
  | VStr s => pack_str s
  | VBytes b =>
      let n := len b in
      (if n <? 256 then xc4 :: [byte_of n]
       else if n <? 65536 then xc5 :: be16 n
       else xc6 :: be32 n) ++ b
  | VList l =>
      if len l <? 16 then byte_of (144 + len l) :: flat_map msgpack l else [xc1]
  | VDict d =>
      if len d <? 16 then
        byte_of (128 + len d)
        :: flat_map (fun kv : string * pyval => let (k, x) := kv in pack_str k ++ msgpack x) d
      else [xc1]
  end.

(** ** Reading the trace *)

(** The arguments of the [event] events fired, in order. *)
Definition fired (event : string) (tr : list effect) : list (option pyval) :=
  omap (fun e => match e with
                 | Fire ev arg => if String.eqb ev event then Some arg else None
                 | _ => None
                 end) tr.

(** The buffers written to the transport of [channel], in order. *)
Definition written (channel : string) (tr : list effect) : list (list byte) :=
  omap (fun e => match e with
                 | Write c buf => if String.eqb c channel then Some buf else None
                 | _ => None
                 end) tr.

(** The channels a transport was opened or a command started for. *)
Definition attempts (tr : list effect) : list string :=
  omap (fun e => match e with
                 | Create c | Exec c => Some c
                 | _ => None
                 end) tr.

(** ** Relations every step of a computation respects *)

(** A relation between the client before and after, closed under doing
    nothing and under sequencing. *)
Class Frame (R : client -> client -> Prop) : Prop := {
  frame_refl : forall s, R s s;
  frame_trans : forall a b c, R a b -> R b c -> R a c
}.

(** [c] relates every client to the one it leaves, however it ends. *)
Definition keeps {A} (R : client -> client -> Prop) (c : M A) : Prop :=
  forall s, R s (snd (c s)).

(** A decoded record whose action code is [stop]. *)
Definition is_stop_record (m : pyval) : bool :=
  match m with
  | VDict d =>
      match Dict.get "a" d with
      | Some a => is_str "stop" a
      | None => false
      end
  | _ => false
  end.

(** The batches a reader hands to [handle_messages] one after the other;
    a batch that raises is reported and the next one is still handled. *)
Fixpoint handle_batches (cls : class) (batches : list (list pyval)) (s : client) : client :=
  match batches with
  | [] => s
  | batch :: rest => handle_batches cls rest (snd (handle_messages cls batch s))
  end.

(** The [stop] events fired so far. *)
Definition stops (s : client) : list (option pyval) := fired "stop" (trace s).

(** Nothing happened to the stop flag or the stop events. *)
Definition same_stops (s s' : client) : Prop :=
  external_stopped s' = external_stopped s /\ stops s' = stops s.

(** At most one [stop] event was added, and only by setting the flag. *)
Definition at_most_one_stop (s s' : client) : Prop :=
  same_stops s s' \/
  (external_stopped s = false /\ external_stopped s' = true /\
   (length (stops s') <= length (stops s) + 1)%nat).

(** ** The handshake *)

(** What [wait_for_at_least_one_message] finds on a stream: the records of
    the first chunk that completes any, a broken connection, a failing read,
    or nothing at all. *)
Inductive frames : Type :=
| Frames (messages : list pyval)
| Broken
| ReadFails (e : exn)
| Blocked.

Fixpoint next_frames (script : list rx_item) : frames :=
  match script with
  | [] => Blocked
  | RxChunk [] :: rest => next_frames rest
  | RxChunk messages :: _ => Frames messages
  | RxEOF :: _ => Broken
  | RxError e :: _ => ReadFails e
  end.

(** The action code of a decoded record. *)
Definition action_of (m : pyval) : option pyval :=
  match m with
  | VDict d => Dict.get "a" d
  | _ => None
  end.

Definition has_action (code : string) (m : pyval) : bool :=
  match action_of m with
  | Some a => is_str code a
  | None => false
  end.

(** A first answer that is none of the three the handshake knows. *)
Definition unrecognized (m : pyval) : bool :=
  negb (has_action "aborted" m || has_action "registration_failed" m
        || has_action "registered" m).

(** No [event] was fired. *)
Definition same_fired (event : string) (s s' : client) : Prop :=
  fired event (trace s') = fired event (trace s).

(** What sending and waiting leave alone: the flags and identity of the
    client, the channels it knows, and the channels that are unregistered. *)
Definition undisturbed (s s' : client) : Prop :=
  active s' = active s /\ name s' = name s /\
  model_name s' = model_name s /\ job_id s' = job_id s /\
  (forall c, Dict.get c (ssh_stream s) <> None -> Dict.get c (ssh_stream s') <> None) /\
  (forall c, is_registered c s = false -> is_registered c s' = false).

Definition same_stdouts (s s' : client) : Prop :=
  ssh_stream_stdouts s' = ssh_stream_stdouts s.

(** The [registration_failed] events the handshake of [channel] fires when
    the peer's side of the stream is [script]. *)
Definition registration_failed_fired (channel : string) (script : list rx_item)
    : list (option pyval) :=
  match next_frames script with
  | Broken => [Some (VDict [("reason", VStr "No answer received.")])]
  | Frames (VDict d :: _) =>
      if has_action "registration_failed" (VDict d) && String.eqb channel "" then
        match Dict.get "reason" d with
        | Some reason => [Some (VDict [("reason", reason)])]
        | None => []
        end
      else []
  | _ => []
  end.

(** ** [ApiClient] *)

(** The two attributes [__init__] stores; [api_key] may be [None]. *)
Record ApiClient := mkApiClient {
  host : string;
  api_key : option string
}.

(** [get_url]: the token is appended when the key is truthy, after [&] when
    the address built so far has a [?] anywhere and after [?] otherwise. *)
Definition get_url (self : ApiClient) (affix : string) : string :=
  let url := "http://" +:+ host self +:+ "/api/" +:+ affix in
  match api_key self with
  | Some key =>
      if negb (String.eqb key "") then
        if contains "?" url then url +:+ "&token=" +:+ key
        else url +:+ "?token=" +:+ key
      else url
  | None => url
  end.

(** ** Starting *)

(** What [start] leaves as it finds it. *)
Definition start_keeps (s s' : client) : Prop :=
  online s' = online s /\ expect_close s' = expect_close s /\
  stop_on_empty_queue s' = stop_on_empty_queue s /\
  external_stopped s' = external_stopped s /\
  connected s' = connected s /\ registered s' = registered s /\
  message_id s' = message_id s /\ objs s' = objs s /\ trace s' = trace s /\
  lock s' = lock s /\ in_connecting s' = in_connecting s.

(** ** Chunked writes *)

(** The buffers the [while data:] loop of [send_message] hands to
    [write], one per turn. *)
Fixpoint chunks (fuel : nat) (data : list byte) : list (list byte) :=
  match data with
  | [] => []
  | _ :: _ =>
      match fuel with
      | O => []
      | S fuel' =>
          take (Z.to_nat BUFFER_SIZE) data
          :: chunks fuel' (drop (Z.to_nat BUFFER_SIZE) data)
      end
  end.

(** A stdin on which no write is going to fail. *)
Definition healthy (plan : list (option exn)) : Prop :=
  Forall (fun outcome => outcome = None) plan.

(** The payload and the size [send_message] works with. *)
Definition payload_of (packb : pyval -> list byte) (message : msg_ref) (s : client)
    : option (list byte * Z) :=
  match message with
  | Queued l =>
      match objs s !! l with
      | Some m => Some (_data m, _total m)
      | None => None
      end
  | Direct d =>
      let data := packb (VDict (Dict.set "_sending" (VBool true) d)) in
      Some (data, len data)
  end.

(** What is left of a stream once [wait_for_at_least_one_message] is done
    with it. *)
Fixpoint after_frames (script : list rx_item) : list rx_item :=
  match script with
  | [] => []
  | RxChunk [] :: rest => after_frames rest
  | RxChunk _ :: rest => rest
  | RxEOF :: rest => RxEOF :: rest
  | RxError _ :: rest => rest
  end.

(** ** Expected closes *)

(** Once a close is expected, the client stays that way and nothing is
    reported, counted, reset or reconnected. *)
Definition closing_quietly (s s' : client) : Prop :=
  expect_close s = true ->
  expect_close s' = true /\
  connected s' = connected s /\ registered s' = registered s /\
  connection_errors s' = connection_errors s /\
  connection_tries s' = connection_tries s /\
  online s' = online s /\
  fired "disconnect" (trace s') = fired "disconnect" (trace s) /\
  fired "offline" (trace s') = fired "offline" (trace s) /\
  attempts (trace s') = attempts (trace s).

(** ** Forced close *)

(** The channels whose transport was closed, in order. *)
Definition closed (tr : list effect) : list string :=
  omap (fun e => match e with
                 | Close c => Some c
                 | _ => None
                 end) tr.

(** The channels of a dictionary that hold a transport. *)
Definition with_stream (d : Dict.t (option ssh_state)) : list string :=
  omap (fun kv : string * option ssh_state =>
          match snd kv with
          | Some _ => Some (fst kv)
          | None => None
          end) d.

(** What [close] does not touch. *)
Definition close_keeps (s s' : client) : Prop :=
  queues s' = queues s /\ objs s' = objs s /\ message_id s' = message_id s /\
  ssh_stream_stdouts s' = ssh_stream_stdouts s /\
  ssh_stream_stdins s' = ssh_stream_stdins s /\
  expect_close s' = expect_close s /\
  stop_on_empty_queue s' = stop_on_empty_queue s /\
  was_connected_once s' = was_connected_once s /\
  (forall c, written c (trace s') = written c (trace s)) /\
  fired "disconnect" (trace s') = fired "disconnect" (trace s).

(** ** Scenarios *)

(** A transport that opens, sends a first frame and answers the handshake
    with [registered]; then the peer closes the stream. *)
Definition accepting : attempt :=
  mkAttempt None
    (inr (mkFiles []
            (Some [RxChunk [VDict [("hello", VInt 1)]];
                   RxChunk [VDict [("a", VStr "registered")]];
                   RxEOF])
            "")).

(** A transport whose command is refused: nothing on stdout, the reason on
    stderr.  [silent] is the same with no stdout at all. *)
Definition denied : attempt :=
  mkAttempt None (inr (mkFiles [] (Some [RxEOF]) "Permission denied (publickey).")).

Definition denied_silent : attempt :=
  mkAttempt None (inr (mkFiles [] None "Permission denied (publickey).")).

(** A configured job client started on the default channel, with the
    answers the transport provider is going to give. *)
Definition job_client (plan : list attempt) : client :=
  snd (start [""]
         (snd (configure (VStr "owner/model") (VStr "job") "worker"
                 (set_transport {["" := plan]} BackendClient_init)))).

(** The same client after it connected once and its reader then met the end
    of the stream. *)
Definition dropped_client (plan : list attempt) : client :=
  snd (thread_read 1 JobClient ""
         (snd (connect msgpack "1" "host" JobClient "" (job_client (accepting :: plan))))).

(** The log entries of a level. *)
Definition logged (lvl : level) (tr : list effect) : list string :=
  omap (fun e => match e with
                 | Log l text => match lvl, l with
                                 | DEBUG, DEBUG | WARNING, WARNING | ERROR, ERROR => Some text
                                 | _, _ => None
                                 end
                 | _ => None
                 end) tr.

(** A job client that connected and registered on the default channel. *)
Definition connected_client : client :=
  snd (connect msgpack "1" "host" JobClient "" (job_client [accepting])).

(** A payload of 1 MiB and one byte, a small one behind it, and then the
    request to drain. *)
Definition large : pyval := VBytes (repeat x00 (Z.to_nat 1048577)).

Definition draining_client : client :=
  snd (wait_sending_last_messages
         (snd (send msgpack (VInt 7) ""
                 (snd (send msgpack large "" connected_client))))).

(** The queue of a channel, empty when the channel has none. *)
Definition queue_of (channel : string) (s : client) : list loc :=
  default [] (queues s !! channel).

(** The messages a queue refers to. *)
Definition queued (channel : string) (s : client) : list message :=
  omap (fun l => objs s !! l) (queue_of channel s).

(** ** Graceful end *)

(** The queues and the messages are what they were. *)
Definition same_store (s s' : client) : Prop :=
  queues s' = queues s /\ objs s' = objs s.

(** Nothing was written to any transport. *)
Definition same_written (s s' : client) : Prop :=
  forall c, written c (trace s') = written c (trace s).

(** The bytes of the end marker as [send_message] packs it. *)
Definition end_marker (packb : pyval -> list byte) : list byte :=
  packb (VDict (Dict.set "_sending" (VBool true) [("type", VStr "end")])).

(** * Properties *)

(** ** Dictionaries *)

Lemma Dict_get_set_eq {V} k (v : V) d : Dict.get k (Dict.set k v d) = Some v.
Proof.
  induction d as [|[k' v'] d IH]; simpl.
  - now rewrite String.eqb_refl.
  - destruct (String.eqb k k') eqn:E; simpl; rewrite ?String.eqb_refl, ?E; auto.
Qed.

Lemma Dict_get_set_ne {V} k k' (v : V) d :
  k <> k' -> Dict.get k' (Dict.set k v d) = Dict.get k' d.
Proof.
  intros Hne. induction d as [|[k2 v2] d IH]; simpl.
  - destruct (String.eqb k' k) eqn:E; auto.
    apply String.eqb_eq in E. congruence.
  - destruct (String.eqb k k2) eqn:E; simpl.
    + apply String.eqb_eq in E. subst k2.
      destruct (String.eqb k' k) eqn:E'; auto.
      apply String.eqb_eq in E'. congruence.
    + destruct (String.eqb k' k2); auto.
Qed.

Lemma Dict_keys_set {V} k (v : V) d :
  Dict.get k d <> None -> Dict.keys (Dict.set k v d) = Dict.keys d.
Proof.
  unfold Dict.keys. induction d as [|[k' v'] d IH]; simpl; [congruence|].
  destruct (String.eqb k k') eqn:E; simpl; intros H.
  - apply String.eqb_eq in E. now subst.
  - f_equal. auto.
Qed.

(** ** Traces *)

Lemma fired_app event tr1 tr2 : fired event (tr1 ++ tr2) = fired event tr1 ++ fired event tr2.
Proof. apply omap_app. Qed.

Lemma written_app channel tr1 tr2 :
  written channel (tr1 ++ tr2) = written channel tr1 ++ written channel tr2.
Proof. apply omap_app. Qed.

Lemma attempts_app tr1 tr2 : attempts (tr1 ++ tr2) = attempts tr1 ++ attempts tr2.
Proof. apply omap_app. Qed.

Ltac unfold_monad :=
  unfold fire, log, sleep, sys_exit, lock_acquire, lock_release, getitem, getitem_d,
    deref, update, alloc, call;
  unfold emit;
  unfold bind, ret, raise, hang, gets, modify, when, try_except, try_finally,
    except_Exception.

Ltac rew_hyps :=
  repeat match goal with
         | H : _ = _ |- _ => rewrite H
         end.

(** Run a computation symbolically: reduce, use the known facts, split on
    what is left. *)
Ltac split_innermost :=
  match goal with
  | |- context [match ?x with _ => _ end] =>
      lazymatch x with
      | context [match _ with _ => _ end] => fail
      | _ => destruct x eqn:?
      end
  end.

Ltac mrun :=
  repeat (repeat first [progress simpl | progress rew_hyps]; try split_innermost).

(** ** Computations *)

Lemma bind_assoc {A B C} (c : M A) (k : A -> M B) (k' : B -> M C) s :
  bind (bind c k) k' s = bind c (fun x => bind (k x) k') s.
Proof. unfold bind. destruct (c s) as [[a|e|] s']; auto. Qed.

Lemma bind_step {A B} (c : M A) (k k' : A -> M B) s :
  (forall a s', k a s' = k' a s') -> bind c k s = bind c k' s.
Proof. intros H. unfold bind. destruct (c s) as [[a|e|] s']; auto. Qed.

Section Keeps.
Context (R : client -> client -> Prop) `{!Frame R}.

Lemma keeps_ret {A} (a : A) : keeps R (ret a).
Proof. intros s. apply frame_refl. Qed.

Lemma keeps_raise {A} e : keeps R (@raise A e).
Proof. intros s. apply frame_refl. Qed.

Lemma keeps_hang {A} : keeps R (@hang A).
Proof. intros s. apply frame_refl. Qed.

Lemma keeps_gets {A} (f : client -> A) : keeps R (gets f).
Proof. intros s. apply frame_refl. Qed.

Lemma keeps_modify f : (forall s, R s (f s)) -> keeps R (modify f).
Proof. intros H s. apply H. Qed.

Lemma keeps_bind {A B} (c : M A) (k : A -> M B) :
  keeps R c -> (forall a, keeps R (k a)) -> keeps R (bind c k).
Proof.
  intros Hc Hk s. unfold bind. specialize (Hc s).
  destruct (c s) as [[a|e|] s']; simpl in *; auto.
  eapply frame_trans; [exact Hc|apply Hk].
Qed.

Lemma keeps_when b c : keeps R c -> keeps R (when b c).
Proof. destruct b; simpl; auto. intros _. exact (keeps_ret _). Qed.

Lemma keeps_try_except {A} (body : M A) handler :
  keeps R body -> (forall e h, handler e = Some h -> keeps R h) ->
  keeps R (try_except body handler).
Proof.
  intros Hb Hh s. unfold try_except. specialize (Hb s).
  destruct (body s) as [[a|e|] s']; simpl in *; auto.
  destruct (handler e) as [h|] eqn:E; simpl; auto.
  eapply frame_trans; [exact Hb|eapply Hh; eauto].
Qed.

Lemma keeps_except_Exception {A} (h : exn -> M A) e m :
  (forall e, keeps R (h e)) -> except_Exception h e = Some m -> keeps R m.
Proof.
  unfold except_Exception. intros Hh. destruct (is_Exception e); [|discriminate].
  intros [= <-]. auto.
Qed.

Lemma keeps_try_finally {A} (body : M A) fin :
  keeps R body -> keeps R fin -> keeps R (try_finally body fin).
Proof.
  intros Hb Hf s. unfold try_finally. specialize (Hb s).
  destruct (body s) as [[a|e|] s']; simpl in *; auto; specialize (Hf s');
    destruct (fin s') as [[[]|e'|] s'']; simpl in *; eapply frame_trans; eauto.
Qed.

Lemma keeps_call {A} f n args (body : M A) : keeps R body -> keeps R (call f n args body).
Proof. unfold call. destruct (Nat.eqb _ _); auto. intros _. exact (keeps_raise _). Qed.

Lemma keeps_lock_acquire : (forall s, R s (set_lock true s)) -> keeps R lock_acquire.
Proof.
  intros H. unfold lock_acquire. refine (keeps_bind _ _ (keeps_gets _) _).
  intros []; [exact keeps_hang|exact (keeps_modify _ H)].
Qed.

Lemma keeps_lock_release : (forall s, R s (set_lock false s)) -> keeps R lock_release.
Proof.
  intros H. unfold lock_release. refine (keeps_bind _ _ (keeps_gets _) _).
  intros []; [exact (keeps_modify _ H)|exact (keeps_raise _)].
Qed.

Lemma keeps_getitem {V} (f : client -> gmap string V) k : keeps R (getitem f k).
Proof.
  unfold getitem. refine (keeps_bind _ _ (keeps_gets _) _).
  intros d. destruct (d !! k); [exact (keeps_ret _)|exact (keeps_raise _)].
Qed.

Lemma keeps_getitem_d {V} (f : client -> Dict.t V) k : keeps R (getitem_d f k).
Proof.
  unfold getitem_d. refine (keeps_bind _ _ (keeps_gets _) _).
  intros d. destruct (Dict.get k d); [exact (keeps_ret _)|exact (keeps_raise _)].
Qed.

Lemma keeps_deref l : keeps R (deref l).
Proof.
  unfold deref. refine (keeps_bind _ _ (keeps_gets _) _).
  intros o. destruct (o !! l); [exact (keeps_ret _)|exact keeps_hang].
Qed.
End Keeps.

Create HintDb keeps.

(** One structural step of a proof that a computation keeps a relation;
    what is left are the updates of the client. *)
Ltac keeps_step :=
  lazymatch goal with
  | |- keeps _ (bind _ _) => refine (keeps_bind _ _ _ _ _); [|intros ?]
  | |- keeps _ (ret _) => exact (keeps_ret _ _)
  | |- keeps _ (raise _) => exact (keeps_raise _ _)
  | |- keeps _ hang => exact (keeps_hang _)
  | |- keeps _ (sys_exit _) => exact (keeps_raise _ _)
  | |- keeps _ (gets _) => exact (keeps_gets _ _)
  | |- keeps _ (getitem _ _) => exact (keeps_getitem _ _ _)
  | |- keeps _ (getitem_d _ _) => exact (keeps_getitem_d _ _ _)
  | |- keeps _ (deref _) => exact (keeps_deref _ _)
  | |- keeps _ (when _ _) => refine (keeps_when _ _ _ _)
  | |- keeps _ (call _ _ _ _) => refine (keeps_call _ _ _ _ _ _)
  | |- keeps _ (try_except _ (except_Exception _)) =>
      refine (keeps_try_except _ _ _ _ _);
      [|intros ? ? ?; refine (keeps_except_Exception _ _ _ _ _ ltac:(eassumption)); intros ?]
  | |- keeps _ (try_finally _ _) => refine (keeps_try_finally _ _ _ _ _)
  | |- keeps _ lock_acquire => refine (keeps_lock_acquire _ _); intros ?
  | |- keeps _ lock_release => refine (keeps_lock_release _ _); intros ?
  | |- keeps _ (modify _) => refine (keeps_modify _ _ _); intros ?
  | |- keeps _ (emit _) => unfold emit; refine (keeps_modify _ _ _); intros ?
  | |- keeps _ (fire _ _) => unfold fire, emit; refine (keeps_modify _ _ _); intros ?
  | |- keeps _ (log _ _) => unfold log, emit; refine (keeps_modify _ _ _); intros ?
  | |- keeps _ (sleep _) => unfold sleep, emit; refine (keeps_modify _ _ _); intros ?
  | |- keeps _ (update _ _) => unfold update
  | |- keeps _ (alloc _) => unfold alloc
  | |- keeps _ (match ?x with _ => _ end) => destruct x
  | |- keeps _ (let _ := _ in _) => cbv zeta
  end.

Ltac keeps_go := repeat first [solve [eauto with keeps] | keeps_step].

(** ** Connection errors *)

(** C10: with the client active and no close expected, [connection_error]
    for one channel of the client empties [connected] and [registered], so
    every channel reads as disconnected and unregistered afterwards, while
    the transports of the other channels are left as they were. *)
Theorem connection_error_resets_every_channel channel error stream st :
  active st = true ->
  expect_close st = false ->
  Dict.get channel (ssh_stream st) = Some stream ->
  let st' := snd (connection_error channel error st) in
  connected st' = ∅ /\ registered st' = ∅ /\
  (forall c, is_connected c st' = false /\ is_registered c st' = false) /\
  (forall c, c <> channel -> Dict.get c (ssh_stream st') = Dict.get c (ssh_stream st)).
Proof.
  intros Ha He Hs.
  assert (Hgoal : let st' := snd (connection_error channel error st) in
                  connected st' = ∅ /\ registered st' = ∅ /\
                  (forall c, c <> channel ->
                             Dict.get c (ssh_stream st') = Dict.get c (ssh_stream st))).
  { unfold connection_error, ssh_close. unfold_monad.
    destruct stream; mrun; repeat split; auto;
      try discriminate; intros c Hc; now apply Dict_get_set_ne. }
  destruct Hgoal as (Hc & Hr & Hf). cbv zeta.
  repeat split; auto; unfold is_connected, is_registered;
    rewrite ?Hc, ?Hr, lookup_empty; reflexivity.
Qed.

Lemma connection_error_resets_every_channel_witness :
  let st := snd (start [""; "b"] (set_connected {["" := true; "b" := true]} BackendClient_init)) in
  is_connected "b" st = true /\
  is_connected "b" (snd (connection_error "" (EStr "Connection broken") st)) = false.
Proof.
  split; [reflexivity|].
  apply (connection_error_resets_every_channel "" (EStr "Connection broken") None);
    reflexivity.
Defined.

(** ** External stop *)


Lemma handle_stop_stopped messages st :
  external_stopped st = true -> handle_stop messages st = (Ret tt, st).
Proof.
  intros Hs. induction messages as [|m messages IH]; [reflexivity|].
  simpl. unfold_monad. destruct m; simpl; auto.
  destruct (Dict.get "a" d); simpl; auto.
  rewrite Hs. simpl. auto.
Qed.

Lemma handle_stop_no_stop messages st :
  Forall (fun m => is_stop_record m = false) messages ->
  handle_stop messages st = (Ret tt, st).
Proof.
  induction 1 as [|m messages Hm _ IH]; [reflexivity|].
  simpl. unfold_monad. destruct m; simpl; auto.
  simpl in Hm. destruct (Dict.get "a" d); simpl; auto.
  rewrite Hm, andb_false_r. auto.
Qed.

Lemma handle_stop_app pre post st :
  handle_stop (pre ++ post) st = (handle_stop pre ;; handle_stop post) st.
Proof.
  revert st. induction pre as [|m pre IH]; intros st; [reflexivity|].
  simpl. rewrite bind_assoc. apply bind_step. intros _ s'. apply IH.
Qed.

Lemma handle_stop_skip m messages st :
  is_stop_record m = false ->
  handle_stop (m :: messages) st = handle_stop messages st.
Proof.
  intros Hm. simpl. unfold_monad. destruct m; simpl; auto.
  simpl in Hm. destruct (Dict.get "a" d); simpl; auto.
  rewrite Hm, andb_false_r. auto.
Qed.

Lemma handle_stop_first d messages st :
  is_stop_record (VDict d) = true ->
  external_stopped st = false ->
  handle_stop (VDict d :: messages) st =
  match Dict.get "force" d with
  | Some force =>
      (Ret tt, set_trace (trace st ++ [Fire "stop" (Some force)]) (set_external_stopped true st))
  | None => (Raise (KeyError "force"), set_external_stopped true st)
  end.
Proof.
  intros Hm Hs. simpl. unfold_monad. simpl in Hm.
  destruct (Dict.get "a" d); [|discriminate].
  rewrite Hs, Hm. simpl.
  destruct (Dict.get "force" d); simpl; auto.
  now rewrite handle_stop_stopped.
Qed.

#[local] Instance same_stops_frame : Frame same_stops.
Proof. split; [split; auto|intros a b c [H1 H2] [H3 H4]; split; congruence]. Qed.

#[local] Instance at_most_one_stop_frame : Frame at_most_one_stop.
Proof.
  split; [left; split; auto|].
  intros a b c [[H1 H2]|(H1 & H2 & H3)] [[H4 H5]|(H4 & H5 & H6)].
  - left. split; congruence.
  - right. rewrite <- H1, <- H2. auto.
  - right. rewrite H4, H5. auto.
  - congruence.
Qed.

Lemma same_stops_at_most_one {A} (c : M A) : keeps same_stops c -> keeps at_most_one_stop c.
Proof. intros H s. left. apply H. Qed.

Lemma handle_stop_at_most_once messages : keeps at_most_one_stop (handle_stop messages).
Proof.
  induction messages as [|m messages IH]; intros st; [left; split; auto|].
  destruct (is_stop_record m) eqn:Hm; [|rewrite handle_stop_skip by auto; apply IH].
  destruct (external_stopped st) eqn:Hs.
  { rewrite handle_stop_stopped by auto. left. split; auto. }
  destruct m; try discriminate.
  rewrite handle_stop_first by auto. right. split; auto.
  unfold stops. destruct (Dict.get "force" d); simpl; split; auto; try lia.
  rewrite fired_app, length_app. simpl. lia.
Qed.


Lemma handle_job_keeps_stops messages : keeps same_stops (handle_job messages).
Proof.
  induction messages as [|m messages IH]; simpl; keeps_go;
    (split; [reflexivity|]); unfold stops; simpl; rewrite fired_app; simpl;
    apply app_nil_r.
Qed.

Lemma handle_job_stopped messages st :
  external_stopped st = true -> handle_job messages st = (Ret tt, st).
Proof.
  intros Hs. induction messages as [|m messages IH]; [reflexivity|].
  simpl. unfold_monad. rewrite Hs. exact IH.
Qed.

Lemma handle_messages_at_most_one_stop cls messages :
  keeps at_most_one_stop (handle_messages cls messages).
Proof.
  assert (Hbase : keeps at_most_one_stop (BackendClient_handle_messages messages)).
  { unfold BackendClient_handle_messages. keeps_go;
      try apply handle_stop_at_most_once; left; split; reflexivity. }
  destruct cls; simpl; auto.
  keeps_go. apply same_stops_at_most_one, handle_job_keeps_stops.
Qed.

(** C8: in a batch handed to [handle_messages], the first record with action
    code [stop] met while no external stop is recorded sets
    [external_stopped] and fires [stop] with the record's [force]; once the
    flag is set no batch fires [stop] again; so all the batches of a run
    fire [stop] at most once. *)
Theorem stop_fires_at_most_once cls :
  (forall st pre d force post,
      lock st = false ->
      external_stopped st = false ->
      Forall (fun m => is_stop_record m = false) pre ->
      is_stop_record (VDict d) = true ->
      Dict.get "force" d = Some force ->
      let r := handle_messages cls (pre ++ VDict d :: post) st in
      fst r = Ret tt /\ external_stopped (snd r) = true /\
      stops (snd r) = stops st ++ [Some force]) /\
  (forall st batch,
      external_stopped st = true ->
      same_stops st (snd (handle_messages cls batch st))) /\
  (forall st batches,
      (length (stops (handle_batches cls batches st)) <=
       length (stops st) + (if external_stopped st then 0 else 1))%nat).
Proof.
  split; [|split].
  - intros st pre d force post Hl Hs Hpre Hd Hf.
    assert (Hbase : BackendClient_handle_messages (pre ++ VDict d :: post) st =
                    (Ret tt, set_lock false
                               (set_trace (trace st ++ [Fire "stop" (Some force)])
                                  (set_external_stopped true (set_lock true st))))).
    { unfold BackendClient_handle_messages, lock_acquire, lock_release, try_finally.
      unfold bind, gets, modify. simpl. rewrite Hl. simpl.
      rewrite handle_stop_app. unfold bind.
      rewrite handle_stop_no_stop by auto.
      rewrite handle_stop_first by auto. rewrite Hf. reflexivity. }
    destruct cls; simpl.
    + rewrite Hbase. simpl. unfold stops. simpl. now rewrite fired_app.
    + unfold bind. rewrite Hbase. rewrite handle_job_stopped by reflexivity.
      simpl. unfold stops. simpl. now rewrite fired_app.
  - intros st batch Hs.
    destruct (handle_messages_at_most_one_stop cls batch st) as [H|(H & _)]; auto.
    congruence.
  - intros st batches. revert st.
    induction batches as [|batch batches IH]; intros st; simpl; [lia|].
    specialize (IH (snd (handle_messages cls batch st))).
    destruct (handle_messages_at_most_one_stop cls batch st) as [[H1 H2]|(H1 & H2 & H3)].
    + rewrite H1, H2 in IH. exact IH.
    + rewrite H1. rewrite H2 in IH. lia.
Qed.

Lemma stop_fires_at_most_once_witness :
  let stop := [("a", VStr "stop"); ("force", VBool true)] in
  let st := snd (start [""] BackendClient_init) in
  stops (snd (handle_messages JobClient [VInt 1; VDict stop; VDict stop] st))
  = [Some (VBool true)].
Proof.
  intros stop st.
  apply (proj1 (stop_fires_at_most_once JobClient) st [VInt 1] stop (VBool true) [VDict stop]);
    try reflexivity.
  repeat constructor.
Defined.

(** C8 as it is stated fails for a stop record that has no [force] field:
    the flag is set, [message['force']] raises [KeyError], no [stop] is
    fired, and the well-formed stop record that follows is ignored. *)
Lemma stop_without_force_fires_nothing :
  let st := snd (start [""] BackendClient_init) in
  let bare := VDict [("a", VStr "stop")] in
  let full := VDict [("a", VStr "stop"); ("force", VBool true)] in
  is_stop_record bare = true /\ external_stopped st = false /\ lock st = false /\
  fst (handle_messages BackendClient [bare] st) = Raise (KeyError "force") /\
  external_stopped (snd (handle_messages BackendClient [bare] st)) = true /\
  stops (snd (handle_messages BackendClient [bare] st)) = [] /\
  stops (handle_batches BackendClient [[bare]; [full]] st) = [].
Proof. vm_compute. repeat split; reflexivity. Qed.

(** ** Building API addresses *)

Lemma prefix_append s t : String.prefix s (s +:+ t) = true.
Proof.
  induction s as [|a s IH]; simpl; [now destruct t|].
  destruct (ascii_dec a a); [exact IH|congruence].
Qed.

Lemma prefix_append_l needle s t :
  String.prefix needle s = true -> String.prefix needle (s +:+ t) = true.
Proof.
  revert s. induction needle as [|a needle IH]; intros s; [now destruct (s +:+ t)|].
  destruct s as [|b s]; simpl; [discriminate|].
  destruct (ascii_dec a b); auto.
Qed.

Lemma contains_append_l needle s t :
  contains needle s = true -> contains needle (s +:+ t) = true.
Proof.
  induction s as [|a s IH]; simpl.
  - rewrite orb_false_r. destruct needle; [now destruct t|discriminate].
  - intros [H|H]%orb_true_iff.
    + apply (prefix_append_l needle (String a s) t) in H. simpl in H. now rewrite H.
    + rewrite IH by exact H. apply orb_true_r.
Qed.

Lemma contains_append_r needle s t :
  contains needle t = true -> contains needle (s +:+ t) = true.
Proof.
  intros H. induction s as [|a s IH]; simpl; auto.
  rewrite IH. apply orb_true_r.
Qed.

Lemma contains_self_append needle t : contains needle (needle +:+ t) = true.
Proof.
  destruct needle as [|a needle]; [now destruct t|].
  change (contains (String a needle) (String a needle +:+ t))
    with (String.prefix (String a needle) (String a needle +:+ t)
          || contains (String a needle) (needle +:+ t)).
  now rewrite prefix_append.
Qed.


(** ** Starting *)

Lemma start_channels_spec channels c : forall st,
  let r := start_channels channels st in
  fst r = Ret tt /\ start_keeps st (snd r) /\ active (snd r) = active st /\
  queues (snd r) !! c = (if decide (c ∈ channels) then Some [] else queues st !! c) /\
  was_connected_once (snd r) !! c
  = (if decide (c ∈ channels) then Some false else was_connected_once st !! c) /\
  Dict.get c (ssh_stream (snd r))
  = (if decide (c ∈ channels) then Some None else Dict.get c (ssh_stream st)) /\
  Dict.get c (ssh_stream_stdouts (snd r))
  = (if decide (c ∈ channels) then Some None else Dict.get c (ssh_stream_stdouts st)) /\
  Dict.get c (ssh_stream_stdins (snd r))
  = (if decide (c ∈ channels) then Some None else Dict.get c (ssh_stream_stdins st)).
Proof.
  induction channels as [|ch channels IH]; intros st.
  - simpl. unfold start_keeps. intuition auto.
  - simpl. unfold bind, modify. simpl.
    match goal with |- context [start_channels channels ?s] => specialize (IH s) end.
    simpl in IH. destruct IH as (Hr & Hk & Ha & Hq & Hw & H1 & H2 & H3).
    split; [exact Hr|]. split; [exact Hk|]. split; [exact Ha|].
    rewrite Hq, Hw, H1, H2, H3. clear Hr Hk Ha Hq Hw H1 H2 H3.
    destruct (decide (c ∈ ch :: channels)) as [Hin'|Hin'],
      (decide (c ∈ channels)) as [Hin|Hin]; try now repeat split.
    + apply elem_of_cons in Hin' as [->|?]; [|contradiction].
      rewrite !lookup_insert_eq, !Dict_get_set_eq. now repeat split.
    + exfalso. apply Hin', elem_of_cons. now right.
    + assert (ch <> c) by (intros ->; apply Hin', elem_of_cons; now left).
      rewrite !lookup_insert_ne, !Dict_get_set_ne by congruence. now repeat split.
Qed.


(** ** Chunked writes *)

Ltac unfold_setters :=
  unfold set_message_id, set_job_id, set_queues, set_ssh_stream, set_ssh_stream_stdouts,
    set_ssh_stream_stdins, set_lock, set_connection_errors, set_connection_tries,
    set_in_connecting, set_stop_on_empty_queue, set_online, set_active, set_expect_close,
    set_external_stopped, set_registered, set_connected, set_was_connected_once,
    set_model_name, set_name, set_objs, set_trace, set_transport; simpl.

Lemma BUFFER_SIZE_pos : (0 < Z.to_nat BUFFER_SIZE)%nat.
Proof. unfold BUFFER_SIZE. lia. Qed.

#[local] Opaque BUFFER_SIZE.

Lemma Dict_set_set {V} k (v v' : V) d : Dict.set k v' (Dict.set k v d) = Dict.set k v' d.
Proof.
  induction d as [|[k' x] d IH]; simpl.
  - now rewrite String.eqb_refl.
  - destruct (String.eqb k k') eqn:E; simpl; rewrite ?String.eqb_refl, ?E; congruence.
Qed.

Lemma Dict_set_same {V} k (v : V) d : Dict.get k d = Some v -> Dict.set k v d = d.
Proof.
  induction d as [|[k' x] d IH]; simpl; [discriminate|].
  destruct (String.eqb k k') eqn:E.
  - apply String.eqb_eq in E. congruence.
  - intros H. now rewrite IH.
Qed.

Lemma chunks_concat fuel : forall data,
  (length data <= fuel)%nat -> concat (chunks fuel data) = data.
Proof.
  induction fuel as [|fuel IH]; intros [|b data] Hlen; simpl in *; auto; [lia|].
  rewrite IH; [apply take_drop|].
  pose proof BUFFER_SIZE_pos. rewrite length_drop. simpl. lia.
Qed.

Lemma chunks_bounded fuel : forall data,
  Forall (fun buf => (0 < length buf <= Z.to_nat BUFFER_SIZE)%nat) (chunks fuel data).
Proof.
  induction fuel as [|fuel IH]; intros [|b data]; simpl; auto.
  constructor; [|apply IH].
  pose proof BUFFER_SIZE_pos. rewrite length_take. simpl. lia.
Qed.

Lemma written_writes c bufs : written c (map (Write c) bufs) = bufs.
Proof.
  induction bufs as [|buf bufs IH]; [reflexivity|].
  cbn [map]. change (Write c buf :: map (Write c) bufs)
    with ([Write c buf] ++ map (Write c) bufs).
  rewrite written_app, IH. unfold written. simpl. now rewrite String.eqb_refl.
Qed.

(** On a healthy stdin the loop writes every chunk and nothing else changes
    but the trace and the stdin's script. *)
Lemma write_chunks_healthy c fuel : forall data plan st,
  (length data <= fuel)%nat ->
  Dict.get c (ssh_stream_stdins st) = Some (Some plan) ->
  healthy plan ->
  write_chunks fuel c data st
  = (Ret tt,
     set_trace (trace st ++ map (Write c) (chunks fuel data))
       (set_ssh_stream_stdins
          (Dict.set c (Some (drop (length (chunks fuel data)) plan)) (ssh_stream_stdins st))
          st)).
Proof.
  induction fuel as [|fuel IH]; intros [|b data] plan st Hlen Hget Hplan;
    simpl in Hlen; try lia.
  - simpl. rewrite app_nil_r, Dict_set_same by exact Hget. now destruct st.
  - simpl. rewrite app_nil_r, Dict_set_same by exact Hget. now destruct st.
  - cbn [write_chunks chunks]. unfold bind at 1. unfold stdin_write.
    unfold getitem_d, gets. unfold bind at 1 2. simpl fst. rewrite Hget.
    unfold ret at 1.
    destruct plan as [|[e|] plan].
    + unfold emit, modify.
      rewrite (IH _ []); [|pose proof BUFFER_SIZE_pos; rewrite length_drop; simpl; lia
                          |exact Hget|constructor].
      unfold_setters. rewrite !drop_nil, <- app_assoc. reflexivity.
    + inversion Hplan; discriminate.
    + unfold bind at 1. unfold emit, modify.
      rewrite (IH _ plan); [|pose proof BUFFER_SIZE_pos; rewrite length_drop; simpl; lia
                            |apply Dict_get_set_eq|now inversion Hplan].
      unfold_setters. rewrite Dict_set_set, <- app_assoc. reflexivity.
Qed.

Lemma written_other_writes c c' bufs : c' <> c -> written c' (map (Write c) bufs) = [].
Proof.
  intros Hne. induction bufs as [|buf bufs IH]; [reflexivity|].
  cbn [map]. change (Write c buf :: map (Write c) bufs)
    with ([Write c buf] ++ map (Write c) bufs).
  rewrite written_app, IH. unfold written. simpl.
  destruct (String.eqb_spec c c'); [congruence|reflexivity].
Qed.

(** The client [send_message] leaves behind on a connected channel with a
    healthy stdin. *)
Lemma send_message_healthy packb message c plan data total st :
  is_connected c st = true ->
  Dict.get c (ssh_stream_stdins st) = Some (Some plan) ->
  healthy plan ->
  payload_of packb message st = Some (data, total) ->
  send_message packb message c st
  = (Ret (Some total),
     set_objs match message with
              | Queued l =>
                  match objs st !! l with
                  | Some m => <[l := set__sent true (set__sending true m)]> (objs st)
                  | None => objs st
                  end
              | Direct _ => objs st
              end
       (set_trace (trace st ++ map (Write c) (chunks (length data) data))
          (set_ssh_stream_stdins
             (Dict.set c (Some (drop (length (chunks (length data) data)) plan))
                (ssh_stream_stdins st)) st))).
Proof.
  intros Hc Hget Hplan Hpay. unfold send_message.
  unfold bind at 1. unfold gets at 1. rewrite Hc. cbv iota. simpl negb. cbv iota.
  destruct message as [l|d]; simpl in Hpay.
  - destruct (objs st !! l) as [m|] eqn:Hm; [|discriminate].
    injection Hpay as <- <-.
    assert (Hlt : (l < length (objs st))%nat) by (eapply lookup_lt_Some; eauto).
    unfold update, deref, try_except.
    unfold bind, gets, modify, ret. simpl. rewrite Hm. simpl.
    rewrite list_lookup_insert_eq by exact Hlt. simpl.
    rewrite (write_chunks_healthy c _ _ plan) by (simpl; auto).
    simpl. rewrite list_lookup_insert_eq by exact Hlt.
    unfold_setters. rewrite list_insert_insert_eq. reflexivity.
  - injection Hpay as <- <-.
    unfold try_except. unfold bind, ret. simpl.
    rewrite (write_chunks_healthy c _ _ plan) by auto.
    now destruct st.
Qed.



(** ** Waiting for frames *)

#[local] Instance same_stdouts_frame : Frame same_stdouts.
Proof. split; unfold same_stdouts; [auto|intros; congruence]. Qed.

Lemma same_stdouts_connection_error c e : keeps same_stdouts (connection_error c e).
Proof. unfold connection_error, ssh_close. keeps_go; reflexivity. Qed.

(** For a channel the client knows, [connection_error] returns. *)
Lemma connection_error_returns c e st :
  Dict.get c (ssh_stream st) <> None -> fst (connection_error c e st) = Ret tt.
Proof.
  intros Hc. unfold connection_error, ssh_close. unfold_monad.
  destruct (Dict.get c (ssh_stream st)) as [[x|]|] eqn:Hs; [| |congruence];
    clear Hc; mrun; reflexivity.
Qed.

Arguments connection_error : simpl never.

Lemma wait_loop_spec c : forall script fuel st stream,
  (length script < fuel)%nat ->
  Dict.get c (ssh_stream_stdouts st) = Some (Some script) ->
  Dict.get c (ssh_stream st) = Some stream ->
  let r := wait_loop fuel c st in
  fst r = match next_frames script with
          | Frames messages => Ret messages
          | Broken => Ret []
          | ReadFails e => Raise e
          | Blocked => Hang
          end /\
  Dict.get c (ssh_stream_stdouts (snd r)) = Some (Some (after_frames script)) /\
  (forall messages,
      next_frames script = Frames messages ->
      messages <> [] /\
      snd r = set_ssh_stream_stdouts
                (Dict.set c (Some (after_frames script)) (ssh_stream_stdouts st)) st).
Proof.
  induction script as [|item script IH]; intros [|fuel] st stream Hlen Hout Hknown;
    simpl in Hlen; try lia.
  - simpl. unfold stdout_read1. unfold_monad. simpl. rewrite Hout. simpl.
    repeat split; auto; discriminate.
  - assert (Hret : forall e, fst (connection_error c e st) = Ret tt).
    { intros e. apply connection_error_returns. congruence. }
    assert (Hsame : forall e, ssh_stream_stdouts (snd (connection_error c e st))
                              = ssh_stream_stdouts st).
    { intros e. apply (same_stdouts_connection_error c e st). }
    destruct item as [messages| |e].
    + set (st1 := set_ssh_stream_stdouts
                    (Dict.set c (Some script) (ssh_stream_stdouts st)) st).
      assert (Hstep : wait_loop (S fuel) c st
                      = match messages with
                        | [] => wait_loop fuel c st1
                        | _ => (Ret messages, st1)
                        end).
      { simpl. unfold stdout_read1. unfold_monad. simpl. rewrite Hout. simpl.
        now destruct messages. }
      cbv zeta. rewrite Hstep. destruct messages as [|m messages].
      * destruct (IH fuel st1 stream) as (H1 & H2 & H3);
          [lia|apply Dict_get_set_eq|exact Hknown|].
        simpl. split; [exact H1|]. split; [exact H2|].
        intros ms Hms. destruct (H3 ms Hms) as [Hne ->]. split; [exact Hne|].
        unfold st1. unfold_setters. now rewrite Dict_set_set.
      * simpl. split; [reflexivity|]. split; [apply Dict_get_set_eq|].
        intros ms [= <-]. split; [discriminate|reflexivity].
    + cbv zeta. simpl. unfold stdout_read1. unfold_monad. simpl. rewrite Hout. simpl.
      specialize (Hret (EStr "Connection broken w")).
      specialize (Hsame (EStr "Connection broken w")).
      destruct (connection_error c (EStr "Connection broken w") st) as [r1 s1].
      simpl in Hret, Hsame. subst r1. simpl. rewrite Hsame.
      repeat split; auto; discriminate.
    + set (st1 := set_ssh_stream_stdouts
                    (Dict.set c (Some script) (ssh_stream_stdouts st)) st).
      cbv zeta. simpl. unfold stdout_read1. unfold_monad. simpl. rewrite Hout. simpl.
      fold st1.
      destruct (is_Exception e); simpl.
      * pose proof (connection_error_returns c (EExn e) st1) as Hr.
        pose proof (same_stdouts_connection_error c (EExn e) st1) as Hk.
        unfold same_stdouts in Hk.
        destruct (connection_error c (EExn e) st1) as [r1 s1].
        simpl in Hr, Hk. rewrite Hr by (simpl; congruence). simpl. rewrite Hk.
        split; [reflexivity|]. split; [apply Dict_get_set_eq|discriminate].
      * split; [reflexivity|]. split; [apply Dict_get_set_eq|discriminate].
Qed.



(** ** Events in a trace *)

Lemma fired_fire event ev arg :
  fired event [Fire ev arg] = if String.eqb ev event then [arg] else [].
Proof. unfold fired. simpl. destruct (String.eqb ev event); reflexivity. Qed.

Lemma fired_log event lvl text : fired event [Log lvl text] = [].
Proof. reflexivity. Qed.

Lemma fired_sleep event ms : fired event [Sleep ms] = [].
Proof. reflexivity. Qed.

Lemma fired_create event c : fired event [Create c] = [].
Proof. reflexivity. Qed.

Lemma fired_exec event c : fired event [Exec c] = [].
Proof. reflexivity. Qed.

Lemma fired_write event c buf : fired event [Write c buf] = [].
Proof. reflexivity. Qed.

Lemma fired_close event c : fired event [Close c] = [].
Proof. reflexivity. Qed.

Create Rewrite HintDb fired.
#[local] Hint Rewrite fired_app fired_fire fired_log fired_sleep fired_create fired_exec
  fired_write fired_close attempts_app : fired.

(** ** Expected closes *)

#[local] Instance closing_quietly_frame : Frame closing_quietly.
Proof.
  split; unfold closing_quietly; [intuition auto|].
  intros a b c Hab Hbc Ha. destruct (Hab Ha) as (Hb & ? & ? & ? & ? & ? & ? & ? & ?).
  destruct (Hbc Hb) as (Hc & ? & ? & ? & ? & ? & ? & ? & ?).
  repeat split; congruence.
Qed.

Ltac keeps_run := repeat first [solve [eauto with keeps] | keeps_step | progress cbv beta].

(** An update that is neither a report nor a reconnect. *)
Ltac closing_base :=
  lazymatch goal with
  | |- keeps _ _ => fail
  | |- _ =>
      unfold closing_quietly; intros ?; simpl; autorewrite with fired; simpl;
      rewrite ?app_nil_r; repeat split; auto
  end.

Lemma closing_ssh_close c : keeps closing_quietly (ssh_close c).
Proof. unfold ssh_close. keeps_run; closing_base. Qed.
#[local] Hint Resolve closing_ssh_close : keeps.

Lemma closing_connection_error c e : keeps closing_quietly (connection_error c e).
Proof.
  intros s. destruct (expect_close s) eqn:Hec; [|intros ?; congruence].
  unfold connection_error, ssh_close. unfold_monad.
  unfold closing_quietly. intros _. mrun; autorewrite with fired; simpl;
    rewrite ?app_nil_r; repeat split; auto.
Qed.
#[local] Hint Resolve closing_connection_error : keeps.

Lemma closing_stdin_write c buf : keeps closing_quietly (stdin_write c buf).
Proof. unfold stdin_write. keeps_run; closing_base. Qed.
#[local] Hint Resolve closing_stdin_write : keeps.

Lemma closing_write_chunks fuel c : forall data,
  keeps closing_quietly (write_chunks fuel c data).
Proof. induction fuel as [|fuel IH]; intros [|b data]; simpl; keeps_run. Qed.
#[local] Hint Resolve closing_write_chunks : keeps.

Lemma closing_send_message packb message c :
  keeps closing_quietly (send_message packb message c).
Proof.
  unfold send_message. keeps_run; try closing_base.
  refine (keeps_try_except _ _ _ _ _); [keeps_run; closing_base|].
  intros e h Hh. destruct e; injection Hh as <-; keeps_run.
Qed.
#[local] Hint Resolve closing_send_message : keeps.

Lemma closing_reset_sending queue_copy : keeps closing_quietly (reset_sending queue_copy).
Proof. induction queue_copy as [|l rest IH]; simpl; keeps_run; closing_base. Qed.
#[local] Hint Resolve closing_reset_sending : keeps.

Lemma closing_send_queue packb c queue_copy : forall sent sent_size,
  keeps closing_quietly (send_queue packb c queue_copy sent sent_size).
Proof. induction queue_copy as [|l rest IH]; intros sent size; simpl; keeps_run. Qed.
#[local] Hint Resolve closing_send_queue : keeps.

Lemma closing_remove_sent c sent : keeps closing_quietly (remove_sent c sent).
Proof. induction sent as [|l rest IH]; simpl; keeps_run; closing_base. Qed.
#[local] Hint Resolve closing_remove_sent : keeps.

Lemma closing_thread_write_flush packb c :
  keeps closing_quietly (thread_write_flush packb c).
Proof. unfold thread_write_flush. keeps_run; closing_base. Qed.
#[local] Hint Resolve closing_thread_write_flush : keeps.

(** The writer asks for a connection only while no close is expected. *)
Lemma closing_thread_write_turn packb version host cls c :
  keeps closing_quietly (thread_write_turn packb version host cls c).
Proof.
  unfold thread_write_turn.
  refine (keeps_bind _ _ _ _ _); [keeps_run|intros on].
  refine (keeps_bind _ _ _ _ _); [|intros returned; keeps_run; closing_base].
  destruct on; [|keeps_run].
  refine (keeps_bind _ _ _ _ _); [keeps_run|intros connected].
  refine (keeps_bind _ _ _ _ _); [keeps_run|intros registered].
  refine (keeps_bind _ _ _ _ _); [keeps_run|intros returned].
  destruct returned; [keeps_run|].
  intros s. destruct (expect_close s) eqn:Hec; [|intros ?; congruence].
  unfold bind, gets, ret. simpl. rewrite Hec, andb_false_r. apply frame_refl.
Qed.
#[local] Hint Resolve closing_thread_write_turn : keeps.

Lemma closing_thread_write packb version host fuel cls c :
  keeps closing_quietly (thread_write packb version host fuel cls c).
Proof. induction fuel as [|fuel IH]; simpl; keeps_run; closing_base. Qed.

Lemma closing_stdout_read1 c : keeps closing_quietly (stdout_read1 c).
Proof. unfold stdout_read1. keeps_run; closing_base. Qed.
#[local] Hint Resolve closing_stdout_read1 : keeps.

Lemma closing_read c : keeps closing_quietly (read c).
Proof. unfold read. keeps_run. Qed.
#[local] Hint Resolve closing_read : keeps.

Lemma closing_handle_messages cls messages :
  keeps closing_quietly (handle_messages cls messages).
Proof.
  assert (Hstop : forall ms, keeps closing_quietly (handle_stop ms)).
  { induction ms as [|m ms IH]; simpl; keeps_run; closing_base. }
  assert (Hjob : forall ms, keeps closing_quietly (handle_job ms)).
  { induction ms as [|m ms IH]; simpl; keeps_run; closing_base. }
  destruct cls; simpl; unfold BackendClient_handle_messages; keeps_run; closing_base.
Qed.
#[local] Hint Resolve closing_handle_messages : keeps.

Lemma closing_thread_read_turn cls c : keeps closing_quietly (thread_read_turn cls c).
Proof. unfold thread_read_turn. keeps_run; closing_base. Qed.
#[local] Hint Resolve closing_thread_read_turn : keeps.

Lemma closing_thread_read fuel cls c : keeps closing_quietly (thread_read fuel cls c).
Proof. induction fuel as [|fuel IH]; simpl; keeps_run; closing_base. Qed.



(** ** Forced close *)

Lemma closed_app tr1 tr2 : closed (tr1 ++ tr2) = closed tr1 ++ closed tr2.
Proof. apply omap_app. Qed.

Lemma Dict_get_elem {V} k (v : V) d :
  NoDup (Dict.keys d) -> (k, v) ∈ d -> Dict.get k d = Some v.
Proof.
  unfold Dict.keys. induction d as [|[k' v'] d IH]; simpl; intros Hnd Hin.
  - now apply elem_of_nil in Hin.
  - apply NoDup_cons in Hnd as [Hk Hnd].
    apply elem_of_cons in Hin as [[= -> ->]|Hin].
    + now rewrite String.eqb_refl.
    + destruct (String.eqb_spec k k') as [->|_]; [|auto].
      exfalso. apply Hk. apply list_elem_of_fmap. exists (k', v). split; [reflexivity|exact Hin].
Qed.

#[local] Instance close_keeps_frame : Frame close_keeps.
Proof.
  split; unfold close_keeps; [intuition auto|].
  intros a b c (? & ? & ? & ? & ? & ? & ? & ? & Hw & ?) (? & ? & ? & ? & ? & ? & ? & ? & Hw' & ?).
  repeat split; try congruence; intros ch; now rewrite Hw', Hw.
Qed.

Lemma close_streams_spec items : forall st,
  (forall c x, (c, Some x) ∈ items -> exists y, Dict.get c (ssh_stream st) = Some (Some y)) ->
  let r := close_streams items st in
  fst r = Ret tt /\ close_keeps st (snd r) /\
  closed (trace (snd r)) = closed (trace st) ++ with_stream items /\
  fired "close" (trace (snd r)) = fired "close" (trace st) /\
  active (snd r) = active st /\ online (snd r) = online st /\
  connected (snd r) = connected st /\ registered (snd r) = registered st.
Proof.
  induction items as [|[c stream] items IH]; intros st Hitems.
  - simpl. rewrite app_nil_r. repeat split; auto.
  - destruct stream as [x|].
    + destruct (Hitems c x) as [y Hy]; [apply elem_of_cons; now left|].
      simpl. unfold ssh_close. unfold_monad. simpl. rewrite Hy. simpl.
      match goal with |- context [close_streams items ?s] =>
        destruct (IH s) as (H1 & H2 & H3 & H4 & H5 & H6 & H7 & H8)
      end.
      { intros c' x' Hin. simpl.
        destruct (String.eqb_spec c c') as [->|Hne].
        - rewrite Dict_get_set_eq. eauto.
        - rewrite Dict_get_set_ne by exact Hne.
          apply (Hitems c' x'), elem_of_cons. now right. }
      split; [exact H1|]. split.
      { eapply frame_trans; [|exact H2].
        unfold close_keeps. simpl. repeat split; auto.
        - intros ch. rewrite !written_app. simpl. now rewrite !app_nil_r.
        - rewrite !fired_app. simpl. now rewrite !app_nil_r. }
      simpl in *. rewrite H3, H4, H5, H6, H7, H8.
      rewrite !closed_app, !fired_app. simpl. rewrite !app_nil_r, <- app_assoc.
      repeat split; auto.
    + simpl. unfold bind at 1. unfold ret at 1.
      apply IH. intros c' x' Hin. apply (Hitems c' x'), elem_of_cons. now right.
Qed.



(** ** A refused key *)


(** ** Draining *)

Lemma send_while_draining packb data channel st :
  stop_on_empty_queue st = true -> send packb data channel st = (Ret tt, st).
Proof.
  intros Hstop. unfold send, bind, gets, ret.
  destruct (active st), (online st); simpl; try reflexivity.
  now rewrite Hstop.
Qed.


(** ** Graceful end *)

#[local] Instance same_store_frame : Frame same_store.
Proof.
  split; unfold same_store; [auto|]. intros a b c [? ?] [? ?]. split; congruence.
Qed.

#[local] Instance same_written_frame : Frame same_written.
Proof.
  split; unfold same_written; [auto|]. intros a b c H H' ch. now rewrite H', H.
Qed.

Ltac store_base :=
  lazymatch goal with
  | |- keeps _ _ => fail
  | |- _ => unfold same_store; simpl; split; reflexivity
  end.

Lemma written_log c lvl text : written c [Log lvl text] = [].
Proof. reflexivity. Qed.
Lemma written_sleep c ms : written c [Sleep ms] = [].
Proof. reflexivity. Qed.
Lemma written_close c c' : written c [Close c'] = [].
Proof. reflexivity. Qed.
Lemma written_fire c ev arg : written c [Fire ev arg] = [].
Proof. reflexivity. Qed.

Ltac written_base :=
  lazymatch goal with
  | |- keeps _ _ => fail
  | |- _ =>
      unfold same_written; intros ?; simpl trace;
      rewrite ?written_app, ?written_log, ?written_sleep, ?written_close, ?written_fire,
        ?app_nil_r; reflexivity
  end.

Lemma store_ssh_close c : keeps same_store (ssh_close c).
Proof. unfold ssh_close. keeps_run; store_base. Qed.
#[local] Hint Resolve store_ssh_close : keeps.

Lemma store_connection_error c e : keeps same_store (connection_error c e).
Proof. unfold connection_error. keeps_run; store_base. Qed.
#[local] Hint Resolve store_connection_error : keeps.

Lemma store_stdin_write c buf : keeps same_store (stdin_write c buf).
Proof. unfold stdin_write. keeps_run; store_base. Qed.
#[local] Hint Resolve store_stdin_write : keeps.

Lemma store_write_chunks fuel c : forall data, keeps same_store (write_chunks fuel c data).
Proof. induction fuel as [|fuel IH]; intros [|b data]; simpl; keeps_run. Qed.
#[local] Hint Resolve store_write_chunks : keeps.

Lemma store_send_direct packb d c : keeps same_store (send_message packb (Direct d) c).
Proof.
  unfold send_message. keeps_run; try store_base.
  refine (keeps_try_except _ _ _ _ _); [keeps_run|].
  intros e h Hh. destruct e; injection Hh as <-; keeps_run.
Qed.
#[local] Hint Resolve store_send_direct : keeps.

Lemma store_stdout_read_all c script : keeps same_store (stdout_read_all c script).
Proof. intros s. unfold stdout_read_all. destruct (read_all false script). store_base. Qed.
#[local] Hint Resolve store_stdout_read_all : keeps.

Lemma store_wait_closed fuel c : forall i, keeps same_store (wait_closed fuel c i).
Proof. induction fuel as [|fuel IH]; intros i; simpl; keeps_run; store_base. Qed.
#[local] Hint Resolve store_wait_closed : keeps.

Lemma store_wait_for_close : keeps same_store wait_for_close.
Proof.
  assert (H : forall channels i, keeps same_store (wait_all_closed channels i)).
  { induction channels as [|c channels IH]; intros i; cbn [wait_all_closed]; keeps_run. }
  unfold wait_for_close. keeps_run; store_base.
Qed.
#[local] Hint Resolve store_wait_for_close : keeps.

Lemma store_send_end packb channels : keeps same_store (send_end packb channels).
Proof. induction channels as [|c channels IH]; simpl; keeps_run. Qed.
#[local] Hint Resolve store_send_end : keeps.

Lemma written_stdout_read_all c script : keeps same_written (stdout_read_all c script).
Proof. intros s. unfold stdout_read_all. destruct (read_all false script). written_base. Qed.
#[local] Hint Resolve written_stdout_read_all : keeps.

Lemma written_wait_closed fuel c : forall i, keeps same_written (wait_closed fuel c i).
Proof. induction fuel as [|fuel IH]; intros i; simpl; keeps_run; written_base. Qed.
#[local] Hint Resolve written_wait_closed : keeps.

Lemma written_wait_for_close : keeps same_written wait_for_close.
Proof.
  assert (H : forall channels i, keeps same_written (wait_all_closed channels i)).
  { induction channels as [|c channels IH]; intros i; cbn [wait_all_closed]; keeps_run. }
  unfold wait_for_close. keeps_run; written_base.
Qed.

Lemma send_message_unconnected packb message c st :
  is_connected c st = false -> send_message packb message c st = (Ret None, st).
Proof. intros Hc. unfold send_message, bind, gets. now rewrite Hc. Qed.

Lemma healthy_drop n plan : healthy plan -> healthy (drop n plan).
Proof. unfold healthy. apply Forall_drop. Qed.

(** [end] hands the marker to [send_message] channel by channel: a connected
    channel gets it on its transport, the others get nothing. *)
Lemma send_end_writes packb : forall channels st,
  NoDup channels ->
  (forall c, c ∈ channels -> is_connected c st = true ->
             exists plan, Dict.get c (ssh_stream_stdins st) = Some (Some plan) /\ healthy plan) ->
  let r := send_end packb channels st in
  fst r = Ret tt /\
  forall c, written c (trace (snd r))
            = written c (trace st)
              ++ (if decide (c ∈ channels) then
                    if is_connected c st then
                      chunks (length (end_marker packb)) (end_marker packb)
                    else []
                  else []).
Proof.
  induction channels as [|k channels IH]; intros st Hnd Hplans.
  - simpl. split; [reflexivity|]. intros c. now rewrite app_nil_r.
  - apply NoDup_cons in Hnd as [Hk Hnd]. cbv zeta.
    destruct (is_connected k st) eqn:Hck.
    + destruct (Hplans k) as (plan & Hget & Hplan); [apply elem_of_cons; now left|exact Hck|].
      pose proof (send_message_healthy packb (Direct [("type", VStr "end")]) k plan
                    (end_marker packb) (len (end_marker packb)) st Hck Hget Hplan eq_refl)
        as Hsend.
      match type of Hsend with _ = (_, ?s) => set (st1 := s) in * end.
      assert (Hstep : send_end packb (k :: channels) st = send_end packb channels st1).
      { cbn [send_end]. unfold bind. now rewrite Hsend. }
      rewrite Hstep.
      destruct (IH st1 Hnd) as [Hr Hw].
      { intros c Hin Hc. destruct (Hplans c) as (p & Hp & Hh);
          [apply elem_of_cons; now right|exact Hc|].
        exists p. split; [|exact Hh]. unfold st1. simpl.
        rewrite Dict_get_set_ne; [exact Hp|]. intros ->. contradiction. }
      split; [exact Hr|]. intros c. rewrite Hw. unfold st1 at 1. simpl trace.
      rewrite written_app.
      change (is_connected c st1) with (is_connected c st).
      destruct (decide (c = k)) as [->|Hne].
      * rewrite written_writes, Hck.
        destruct (decide (k ∈ channels)); [contradiction|].
        destruct (decide (k ∈ k :: channels)) as [_|Hn];
          [now rewrite app_nil_r|exfalso; apply Hn, elem_of_cons; now left].
      * rewrite written_other_writes by exact Hne. rewrite app_nil_r.
        destruct (decide (c ∈ channels)) as [Hin|Hin],
          (decide (c ∈ k :: channels)) as [Hin'|Hin']; try reflexivity.
        -- exfalso. apply Hin', elem_of_cons. now right.
        -- apply elem_of_cons in Hin' as [?|?]; contradiction.
    + assert (Hstep : send_end packb (k :: channels) st = send_end packb channels st).
      { cbn [send_end]. unfold bind. now rewrite send_message_unconnected. }
      rewrite Hstep.
      destruct (IH st Hnd) as [Hr Hw].
      { intros c Hin. apply Hplans, elem_of_cons. now right. }
      split; [exact Hr|]. intros c. rewrite Hw.
      destruct (decide (c = k)) as [->|Hne].
      * rewrite Hck. destruct (decide (k ∈ channels)), (decide (k ∈ k :: channels));
          reflexivity.
      * destruct (decide (c ∈ channels)) as [Hin|Hin],
          (decide (c ∈ k :: channels)) as [Hin'|Hin']; try reflexivity.
        -- exfalso. apply Hin', elem_of_cons. now right.
        -- apply elem_of_cons in Hin' as [?|?]; contradiction.
Qed.



